(** * The Denovo frontend of yt: a shallow embedding

    Source: [yt/frontends/denovo/data_structures.py] (classes
    [DenovoIndex] and [DenovoDataset]).

    The frontend reads an HDF5 file through h5py and copies what it
    finds into Python dictionaries and lists.  The embedding keeps the
    three layers of the source apart:

    - [Py]: the Python exceptions the code can meet, the error monad in
      which every fallible call lives, [list.remove], tuple indexing and
      the [%03i] format;
    - [Np]: what the code asks of a numpy value, an integer scalar, an
      integer array or a float64 array ([len], [min], [max], truth
      value, iteration, [%i]);
    - [H5]: the object tree of an open file, [obj[path]], [name in group],
      [group.items()], [dataset.value] and [isinstance(_, Dataset)];

    and then the two classes, method by method, under their own names. *)

From Stdlib Require Import DecimalString DecimalPos DecimalN QArith.
From stdpp Require Import gmap strings list fin_maps numbers.

Set Warnings "-register-all".
Open Scope string_scope.
Open Scope list_scope.

(** ** Python *)

Module Py.

(** The exception classes that can be raised on the paths modelled
    here.  [OSError] stands for what [h5py.File] raises when the file is
    missing, unreadable or not HDF5; the validator does not tell them
    apart, so the constructor carries the reason as text. *)
Inductive exn : Type :=
| KeyError
| ValueError
| AttributeError
| TypeError
| IndexError
| OSError (reason : string).

#[global] Instance exn_eq_dec : EqDecision exn.
Proof. solve_decision. Defined.

(** A computation either returns or raises. *)
Inductive result (A : Type) : Type :=
| Ok (a : A)
| Raise (e : exn).
Arguments Ok {A} a.
Arguments Raise {A} e.

#[global] Instance result_ret : MRet result := @Ok.
#[global] Instance result_bind : MBind result :=
  λ A B f r, match r with Ok a => f a | Raise e => Raise e end.
#[global] Instance result_fmap : FMap result :=
  λ A B f r, match r with Ok a => Ok (f a) | Raise e => Raise e end.

(** [try: body / except: handler] with a bare [except], which catches
    every exception. *)
Definition try_except {A} (body handler : result A) : result A :=
  match body with
  | Ok a => Ok a
  | Raise _ => handler
  end.

(** [d[k]] on a dict: [KeyError] when the key is missing. *)
Definition dict_getitem {V} (d : gmap string V) (k : string) : result V :=
  match d !! k with
  | Some v => Ok v
  | None => Raise KeyError
  end.

(** [t[i]] on a tuple or list: [IndexError] out of range. *)
Definition seq_getitem {A} (t : list A) (i : nat) : result A :=
  match t !! i with
  | Some a => Ok a
  | None => Raise IndexError
  end.

(** [l.remove(x)]: drops the first element equal to [x]; [ValueError]
    when there is none. *)
Fixpoint list_remove {A} `{EqDecision A} (x : A) (l : list A)
  : result (list A) :=
  match l with
  | [] => Raise ValueError
  | y :: l' =>
      if decide (x = y) then Ok l'
      else l'' ← list_remove x l'; Ok (y :: l'')
  end.

(** [s.zfill(width)] on a string of digits. *)
Definition zfill (width : nat) (s : string) : string :=
  String.concat "" (replicate (width - String.length s) "0") +:+ s.

(** ['%03i' % n] for an integer [n]: the decimal digits, padded with
    zeros to three characters, the sign counting as one of them. *)
Definition pct_03i (n : Z) : string :=
  let digits := NilZero.string_of_uint (N.to_uint (Z.abs_N n)) in
  if (n <? 0)%Z then "-" +:+ zfill 2 digits else zfill 3 digits.

End Py.
Export Py.

(** ** numpy values *)

Module Np.

(** A float64 component: a finite value, which is a rational number, or
    NaN.  The order of the finite values is that of the rationals; NaN
    is not ordered with anything.  (The two infinities, which are
    ordered with the finite values, below and above all of them, are
    left out.) *)
Inductive float64 : Type :=
| Finite (q : Q)
| NaN.

#[global] Instance Q_eq_dec : EqDecision Q.
Proof. solve_decision. Defined.
#[global] Instance float64_eq_dec : EqDecision float64.
Proof. solve_decision. Defined.

(** What [dataset.value] hands back: an integer scalar, a
    one-dimensional integer array (a group list, a flag) or a
    one-dimensional float64 array (a coordinate array). *)
Inductive value : Type :=
| VScalar (x : Z)
| VArray (xs : list Z)
| VFloats (fs : list float64).

#[global] Instance value_eq_dec : EqDecision value.
Proof. solve_decision. Defined.

(** One component, as iteration and the reductions hand it back: a
    numpy integer or a numpy float. *)
Inductive number : Type :=
| Integer (z : Z)
| Floating (f : float64).

#[global] Instance number_eq_dec : EqDecision number.
Proof. solve_decision. Defined.

(** [len(v)]: a numpy scalar has no length. *)
Definition len (v : value) : result nat :=
  match v with
  | VScalar _ => Raise TypeError
  | VArray xs => Ok (length xs)
  | VFloats fs => Ok (length fs)
  end.

(** [for x in v]: a numpy scalar is not iterable. *)
Definition iter (v : value) : result (list number) :=
  match v with
  | VScalar _ => Raise TypeError
  | VArray xs => Ok (Integer <$> xs)
  | VFloats fs => Ok (Floating <$> fs)
  end.

(** [numpy.minimum] and [numpy.maximum] on two floats: NaN as soon as
    one of them is NaN. *)
Definition fmin (a b : float64) : float64 :=
  match a, b with
  | Finite p, Finite q => if Qle_bool p q then a else b
  | _, _ => NaN
  end.

Definition fmax (a b : float64) : float64 :=
  match a, b with
  | Finite p, Finite q => if Qle_bool p q then b else a
  | _, _ => NaN
  end.

(** [v.min()] and [v.max()]: a reduction over a zero-size array has no
    identity and raises [ValueError]; a scalar is its own extremum; a
    float array that holds a NaN reduces to NaN. *)
Definition min (v : value) : result number :=
  match v with
  | VScalar x => Ok (Integer x)
  | VArray [] => Raise ValueError
  | VArray (x :: xs) => Ok (Integer (foldl Z.min x xs))
  | VFloats [] => Raise ValueError
  | VFloats (f :: fs) => Ok (Floating (foldl fmin f fs))
  end.

Definition max (v : value) : result number :=
  match v with
  | VScalar x => Ok (Integer x)
  | VArray [] => Raise ValueError
  | VArray (x :: xs) => Ok (Integer (foldl Z.max x xs))
  | VFloats [] => Raise ValueError
  | VFloats (f :: fs) => Ok (Floating (foldl fmax f fs))
  end.

(** [bool(x)] for a float: false for zero only; NaN is true. *)
Definition float_truth (f : float64) : bool :=
  match f with
  | Finite q => negb (Qnum q =? 0)%Z
  | NaN => true
  end.

(** [bool(v)], as taken by [if v]: a scalar is true when it is not
    zero; so is an array of one element; an empty array is false (with
    a deprecation warning in the numpy releases that h5py's [.value]
    runs with); an array of several elements has no truth value
    ([ValueError]). *)
Definition truth (v : value) : result bool :=
  match v with
  | VScalar x => Ok (negb (x =? 0)%Z)
  | VArray [] => Ok false
  | VArray [x] => Ok (negb (x =? 0)%Z)
  | VArray (_ :: _ :: _) => Raise ValueError
  | VFloats [] => Ok false
  | VFloats [f] => Ok (float_truth f)
  | VFloats (_ :: _ :: _) => Raise ValueError
  end.

(** [int(f)], which [%i] applies to a float: the value cut off towards
    zero; [ValueError] for NaN. *)
Definition int_of_float (f : float64) : result Z :=
  match f with
  | Finite q => Ok (Z.quot (Qnum q) (Z.pos (Qden q)))
  | NaN => Raise ValueError
  end.

(** ['%03i' % x] for a component [x]. *)
Definition format_03i (x : number) : result string :=
  match x with
  | Integer z => Ok (pct_03i z)
  | Floating f => z ← int_of_float f; Ok (pct_03i z)
  end.

End Np.

(** ** h5py objects *)

Module H5.
Import Np.

(** The objects of an HDF5 file.  A group maps names to objects; the
    names of one group are distinct, which the finite map gives for
    free.  [map_to_list] stands for the order in which the library
    lists the members; it is some fixed order, not the library's own,
    and nothing below depends on which. *)
Inductive node : Type :=
| Dataset (v : value)
| Group (members : gmap string node)
| Datatype.

(** An open file: its root group. *)
Record file : Type := File { root : gmap string node }.

(** [obj[path]], the path given by its components: ["/denovo/db"] is
    [["denovo"; "db"]] and ["/"] is [[]].  A missing component, or one
    below something that is not a group, is a [KeyError]. *)
Fixpoint getitem (n : node) (path : list string) : result node :=
  match path with
  | [] => Ok n
  | k :: path' =>
      match n with
      | Group members =>
          match members !! k with
          | Some child => getitem child path'
          | None => Raise KeyError
          end
      | _ => Raise KeyError
      end
  end.

Definition file_getitem (f : file) (path : list string) : result node :=
  getitem (Group (root f)) path.

(** [name in obj] for a group: is there a link of that name. *)
Definition contains (n : node) (name : string) : result bool :=
  match n with
  | Group members => Ok (bool_decide (is_Some (members !! name)))
  | _ => Raise TypeError
  end.

(** [obj.items()]: only groups have it. *)
Definition items (n : node) : result (list (string * node)) :=
  match n with
  | Group members => Ok (map_to_list members)
  | _ => Raise AttributeError
  end.

(** [obj.value]: only datasets have it. *)
Definition value_of (n : node) : result value :=
  match n with
  | Dataset v => Ok v
  | _ => Raise AttributeError
  end.


(** [isinstance(obj, h5py.Group)]. *)
Definition is_group (n : node) : bool :=
  match n with
  | Group _ => true
  | _ => false
  end.

End H5.

(** ** class DenovoIndex *)

Module DenovoIndex.
Import Np H5.

(** An entry of [field_list]: (field type, field name). *)
Definition field : Type := string * string.

(** The path ['/denovo/db/hdf5_db']. *)
Definition hdf5_db : list string := ["denovo"; "db"; "hdf5_db"].

(** The comprehension
    [[(field_type, key) for key, val in ....items() if val.value]]:
    the items are visited in order, and the first [val.value] or truth
    test that raises ends it. *)
Fixpoint comprehension (field_type : string) (its : list (string * node))
  : result (list field) :=
  match its with
  | [] => Ok []
  | (key, val) :: its' =>
      v ← value_of val;
      b ← truth v;
      rest ← comprehension field_type its';
      Ok (if b : bool then (field_type, key) :: rest else rest)
  end.

(** The two removals that close both branches:
    [if (t, 'angular_mesh') in l: l.remove((t, 'angular_mesh'))] and
    then [l.remove((t, 'block'))]. *)
Definition drop_unsupported (field_type : string) (field_list : list field)
  : result (list field) :=
  field_list ←
    (if bool_decide ((field_type, "angular_mesh") ∈ field_list)
     then list_remove (field_type, "angular_mesh") field_list
     else Ok field_list);
  list_remove (field_type, "block") field_list.

(** ['egroup_%03i' % group_number] for an integer group number. *)
Definition egroup (group_number : Z) : string :=
  "egroup_" +:+ pct_03i group_number.

(** ['egroup_%03i' % group_number] for a component of ['mesh_g']: for an
    integer it is [egroup]; a float is cut off to an integer first. *)
Definition egroup_label (group_number : number) : result string :=
  digits ← format_03i group_number;
  Ok ("egroup_" +:+ digits).

(** [_create_group_fields(self, group_number)], the field list passed
    in and out. *)
Definition _create_group_fields (fhandle : file) (group_number : number)
    (field_list : list field) : result (list field) :=
  field_type ← egroup_label group_number;
  db ← file_getitem fhandle hdf5_db;
  its ← items db;
  new ← comprehension field_type its;
  drop_unsupported field_type (field_list ++ new).

(** The loop [for group in ...: self._create_group_fields(group)]. *)
Fixpoint for_groups (fhandle : file) (groups : list number)
    (field_list : list field) : result (list field) :=
  match groups with
  | [] => Ok field_list
  | group :: groups' =>
      field_list ← _create_group_fields fhandle group field_list;
      for_groups fhandle groups' field_list
  end.

(** [_detect_output_fields(self)]: returns the new [self.field_list]. *)
Definition _detect_output_fields (parameters : gmap string value)
    (fhandle : file) : result (list field) :=
  num_groups ←
    (if bool_decide (is_Some (parameters !! "mesh_g"))
     then mesh_g ← dict_getitem parameters "mesh_g"; len mesh_g
     else Ok 0);
  if bool_decide (0 < num_groups) then
    mesh_g ← dict_getitem parameters "mesh_g";
    groups ← iter mesh_g;
    for_groups fhandle groups []
  else
    db ← file_getitem fhandle hdf5_db;
    its ← items db;
    field_list ← comprehension "denovo" its;
    drop_unsupported "denovo" field_list.

End DenovoIndex.

(** ** class DenovoDataset *)

Module DenovoDataset.
Import Np H5.

(** The attributes of the dataset object that the methods below read
    or write. *)
Record dataset : Type := Dataset_ {
  parameter_filename : string;
  unique_identifier : string;
  parameters : gmap string value;
  domain_left_edge : list number;
  domain_right_edge : list number;
  domain_dimensions : list Z;
  dimensionality : nat;
  fluid_types : list string;
  periodicity : bool * bool * bool;
  current_time : Z;
  cosmological_simulation : Z;
  current_redshift : Z;
  omega_lambda : Z;
  omega_matter : Z;
  hubble_constant : Z
}.

(** The test [any([key == 'flux', key == 'source',
    key == 'angular_flux', key == 'block'])]. *)
Definition stored_elsewhere (key : string) : bool :=
  existsb id [bool_decide (key = "flux"); bool_decide (key = "source");
              bool_decide (key = "angular_flux"); bool_decide (key = "block")].

(** One turn of the loop of [_load_parameters]. *)
Definition load_item (parameters : gmap string value) (it : string * node)
  : gmap string value :=
  let '(key, val) := it in
  match val with
  | Dataset v =>
      if stored_elsewhere key then parameters
      else <[key := v]> parameters
  | _ => parameters
  end.

(** [_load_parameters(self)]: updates [self.parameters] in place and
    returns it. *)
Definition _load_parameters (handle : file) (parameters : gmap string value)
  : result (gmap string value) :=
  denovo ← file_getitem handle ["denovo"];
  its ← items denovo;
  Ok (foldl load_item parameters its).

(** The loop
    [for group_number in ...: self.fluid_types += ('egroup_%03i' % group_number,)]. *)
Fixpoint for_group_numbers (groups : list number) (fluid_types : list string)
  : result (list string) :=
  match groups with
  | [] => Ok fluid_types
  | group_number :: groups' =>
      digits ← format_03i group_number;
      for_group_numbers groups' (fluid_types ++ ["egroup_" +:+ digits])
  end.

(** [_load_energy_fluid_types(self)]: returns the new
    [self.fluid_types]. *)
Definition _load_energy_fluid_types (parameters : gmap string value)
    (fluid_types : list string) : result (list string) :=
  mesh_g ← dict_getitem parameters "mesh_g";
  n ← len mesh_g;
  if bool_decide (0 < n) then
    mesh_g ← dict_getitem parameters "mesh_g";
    groups ← iter mesh_g;
    for_group_numbers groups fluid_types
  else Ok fluid_types.

(** [_load_domain_edge(self)].  [np.array([a, b, c])] is the list of its
    three components, each as [min] or [max] handed it back. *)
Definition _load_domain_edge (parameters : gmap string value)
  : result (list number * list number) :=
  if bool_decide (is_Some (parameters !! "mesh_x")) then
    lx ← dict_getitem parameters "mesh_x" ≫= min;
    ly ← dict_getitem parameters "mesh_y" ≫= min;
    lz ← dict_getitem parameters "mesh_z" ≫= min;
    rx ← dict_getitem parameters "mesh_x" ≫= max;
    ry ← dict_getitem parameters "mesh_y" ≫= max;
    rz ← dict_getitem parameters "mesh_z" ≫= max;
    Ok ([lx; ly; lz], [rx; ry; rz])
  else Ok ([], []).

Section Files.
(** [h5py.File(name, 'r')]: the files that can be opened, and what is
    raised for the others. *)
Variable h5py_File : string → result file.

(** [_parse_parameter_file(self)]. *)
Definition _parse_parameter_file (self : dataset) : result dataset :=
  handle ← h5py_File (parameter_filename self);
  parameters ← _load_parameters handle (parameters self);
  edges ← _load_domain_edge parameters;
  let domain_dimensions := [2; 2; 2]%Z in
  fluid_types ← _load_energy_fluid_types parameters (fluid_types self);
  Ok {| parameter_filename := parameter_filename self;
        unique_identifier := parameter_filename self;
        parameters := parameters;
        domain_left_edge := edges.1;
        domain_right_edge := edges.2;
        domain_dimensions := domain_dimensions;
        dimensionality := length domain_dimensions;
        fluid_types := fluid_types;
        periodicity := (false, false, false);
        current_time := 0;
        cosmological_simulation := 0;
        current_redshift := 0;
        omega_lambda := 0;
        omega_matter := 0;
        hubble_constant := 0 |}.

(** [_is_valid(self, *args, **kwargs)]: everything up to
    [return valid] is inside the [try]; the bare [except] falls
    through to [return False].  The two membership tests are joined by
    [or], so the second is made only when the first is false;
    [fileh.close()] has no result and does not appear. *)
Definition _is_valid (args : list string) : result bool :=
  try_except
    (name ← seq_getitem args 0;
     fileh ← h5py_File name;
     a ← (r ← file_getitem fileh []; contains r "denovo");
     valid ←
       (if a : bool then Ok true
        else r ← file_getitem fileh []; contains r "denovo-forward");
     Ok valid)
    (Ok false).
End Files.

End DenovoDataset.

(** ** Vocabulary of the statements

    What the specification calls a populated dataset, the names it sets
    aside, and the field list it expects for one field type.  These are
    the words of the specification; the lemmas below relate them to the
    code. *)

Module Spec.
Import Np H5 DenovoIndex.

(** A member that is a dataset and whose stored value is true. *)
Definition populated (n : node) : bool :=
  match n with
  | Dataset v => match truth v with Ok b => b | Raise _ => false end
  | _ => false
  end.

(** A member whose [.value] can be read and tested. *)
Definition readable (n : node) : bool :=
  match n with
  | Dataset v => match truth v with Ok _ => true | Raise _ => false end
  | _ => false
  end.

(** The names of the populated members, in listing order. *)
Definition flagged (its : list (string * node)) : list string :=
  (filter (λ it, populated it.2) its).*1.

(** The two names that are taken out of every field list. *)
Definition unsupported (name : string) : bool :=
  bool_decide (name = "angular_mesh") || bool_decide (name = "block").

(** The field list of one field type: the populated names that are
    supported, each paired with the type. *)
Definition kept (field_type : string) (its : list (string * node))
  : list field :=
  pair field_type <$> filter (λ name, ¬ unsupported name) (flagged its).

(** No entry of the list carries one of the two names that are taken
    out: what the loop over the groups keeps true of
    [self.field_list]. *)
Definition supported_only (field_list : list field) : Prop :=
  ∀ field_type name, (field_type, name) ∈ field_list → ¬ unsupported name.

(** The integer that [%03i] prints for a float: its value cut off
    towards zero; none for NaN. *)
Definition float_group (f : float64) : option Z :=
  match f with
  | Finite q => Some (Z.quot (Qnum q) (Z.pos (Qden q)))
  | NaN => None
  end.

(** The integer that [%03i] prints for a component. *)
Definition group_number (x : number) : option Z :=
  match x with
  | Integer z => Some z
  | Floating f => float_group f
  end.


(** No group list, or one without components. *)
Definition no_groups (parameters : gmap string value) : Prop :=
  parameters !! "mesh_g" = None
  ∨ parameters !! "mesh_g" = Some (VArray [])
  ∨ parameters !! "mesh_g" = Some (VFloats []).

(** The field types under which fields are listed: one per energy
    group, or the fallback. *)
Definition field_types (parameters : gmap string value) : list string :=
  match parameters !! "mesh_g" with
  | Some (VArray (g :: gs)) => egroup <$> (g :: gs)
  | Some (VFloats (f :: fs)) => egroup <$> omap float_group (f :: fs)
  | _ => ["denovo"]
  end.

(** The whole field list: the field lists of the field types, one after
    the other. *)
Definition expected_fields (parameters : gmap string value)
    (members : gmap string node) : list field :=
  mjoin ((λ field_type, kept field_type (map_to_list members))
           <$> field_types parameters).

(** The components of a value, and their order: integers among
    themselves, finite floats among themselves; NaN is below nothing and
    above nothing. *)
Definition elements (v : value) : list number :=
  match v with
  | VScalar x => [Integer x]
  | VArray xs => Integer <$> xs
  | VFloats fs => Floating <$> fs
  end.

Definition num_le (a b : number) : Prop :=
  match a, b with
  | Integer x, Integer y => (x ≤ y)%Z
  | Floating (Finite p), Floating (Finite q) => (p <= q)%Q
  | _, _ => False
  end.

(** [a] is the least (greatest) component of [v]. *)
Definition least (a : number) (v : value) : Prop :=
  a ∈ elements v ∧ ∀ x, x ∈ elements v → num_le a x.
Definition greatest (a : number) (v : value) : Prop :=
  a ∈ elements v ∧ ∀ x, x ∈ elements v → num_le x a.

(** [v] holds a NaN; [v] is an array without components. *)
Definition holds_nan (v : value) : Prop := Floating NaN ∈ elements v.
Definition no_elements (v : value) : bool :=
  match v with
  | VArray [] | VFloats [] => true
  | _ => false
  end.

(** The minimum (maximum) of a value, as numpy understands it: NaN as
    soon as the value holds one, the least (greatest) component if it
    holds none. *)
Definition minimum (a : number) (v : value) : Prop :=
  (holds_nan v → a = Floating NaN) ∧ (¬ holds_nan v → least a v).
Definition maximum (a : number) (v : value) : Prop :=
  (holds_nan v → a = Floating NaN) ∧ (¬ holds_nan v → greatest a v).

End Spec.

(** ** Sample files

    Small files in the layout the frontend reads: the coordinate arrays
    and the optional group list under ['/denovo'], the flag datasets under
    ['/denovo/db/hdf5_db']. *)

Module Samples.
Import Np H5.

(** The flag datasets: three populated, one not. *)
Definition flags : gmap string node :=
  {[ "block" := Dataset (VScalar 1);
     "flux" := Dataset (VScalar 1);
     "source" := Dataset (VScalar 0);
     "angular_mesh" := Dataset (VScalar 1) ]}.

(** The members of ['/denovo'] apart from the group list. *)
Definition denovo_members : gmap string node :=
  {[ "mesh_x" := Dataset (VArray [0; 1; 2]%Z);
     "mesh_y" := Dataset (VArray [0; 1]%Z);
     "mesh_z" := Dataset (VArray [0; 5]%Z);
     "flux" := Dataset (VArray [7; 7]%Z);
     "block" := Dataset (VArray [3]%Z);
     "db" := Group {[ "hdf5_db" := Group flags ]} ]}.

(** A file without energy groups. *)
Definition plain : file :=
  File {[ "denovo" := Group denovo_members ]}.

(** The same file with two energy groups. *)
Definition grouped : file :=
  File {[ "denovo" :=
            Group (<["mesh_g" := Dataset (VArray [1; 2]%Z)]> denovo_members) ]}.

(** The same file with an empty group list. *)
Definition ungrouped : file :=
  File {[ "denovo" :=
            Group (<["mesh_g" := Dataset (VArray [])]> denovo_members) ]}.

(** A file whose root holds a dataset, not a group, under the marker
    name. *)
Definition marker_dataset : file :=
  File {[ "denovo" := Dataset (VScalar 0) ]}.


(** A dataset object as the base class hands it to
    [_parse_parameter_file]: nothing loaded yet, the fluid types of the
    base class and ['denovo']. *)
Definition fresh (filename : string) : DenovoDataset.dataset :=
  {| DenovoDataset.parameter_filename := filename;
     DenovoDataset.unique_identifier := "";
     DenovoDataset.parameters := ∅;
     DenovoDataset.domain_left_edge := [];
     DenovoDataset.domain_right_edge := [];
     DenovoDataset.domain_dimensions := [];
     DenovoDataset.dimensionality := 0;
     DenovoDataset.fluid_types := ["gas"; "deposit"; "index"; "denovo"];
     DenovoDataset.periodicity := (false, false, false);
     DenovoDataset.current_time := 0;
     DenovoDataset.cosmological_simulation := 0;
     DenovoDataset.current_redshift := 0;
     DenovoDataset.omega_lambda := 0;
     DenovoDataset.omega_matter := 0;
     DenovoDataset.hubble_constant := 0 |}.

(** A directory with the sample files; every other name is missing. *)
Definition disk (name : string) : result file :=
  if bool_decide (name = "plain.out.h5") then Ok plain
  else if bool_decide (name = "grouped.out.h5") then Ok grouped
  else if bool_decide (name = "ungrouped.out.h5") then Ok ungrouped
  else if bool_decide (name = "marker.h5") then Ok marker_dataset
  else Raise (OSError "No such file or directory").

End Samples.

(** ** Reading a label back

    [int(s)] on a string of decimal digits with an optional minus sign in
    front, as far as the labels made by [%03i] need it: the inverse that
    the statements about the labels are measured against. *)

Module Readback.
Import Stdlib.Strings.Ascii.

(** The digits of [s] as a number; leading zeros count for nothing. *)
Definition nat_of_digits (s : string) : option N :=
  N.of_uint <$> NilEmpty.uint_of_string s.

Definition int_of_string (s : string) : option Z :=
  match s with
  | String "-"%char s' => (λ n, - Z.of_N n)%Z <$> nat_of_digits s'
  | _ => Z.of_N <$> nat_of_digits s
  end.

End Readback.

(** ** More sample files *)

Module MoreSamples.
Import Np H5.

(** A forward run: the marker group is ['denovo-forward'], and there is
    no ['denovo']. *)
Definition forward : file :=
  File {[ "denovo-forward" := Group Samples.denovo_members ]}.

(** A directory that also holds the forward run. *)
Definition disk (name : string) : result file :=
  if bool_decide (name = "forward.out.h5") then Ok forward
  else Samples.disk name.

(** A parameter mapping left over from elsewhere: a stale ['mesh_x'] and
    a key the file does not have. *)
Definition stale : gmap string value :=
  {[ "mesh_x" := VArray [40; 50]%Z; "comment" := VScalar 9 ]}.

(** The coordinate arrays of the first sample as float64 arrays; the
    same with a NaN in ['mesh_x']; the same with an empty ['mesh_x']. *)
Definition float_mesh : gmap string value :=
  {[ "mesh_x" := VFloats [Finite 0; Finite 1; Finite 2];
     "mesh_y" := VFloats [Finite 0; Finite 1];
     "mesh_z" := VFloats [Finite 0; Finite 5] ]}.
Definition nan_mesh : gmap string value :=
  <["mesh_x" := VFloats [Finite 0; NaN; Finite 2]]> float_mesh.

End MoreSamples.

(** ** The error monad *)

Section result_facts.
Context {A B : Type}.

Lemma bind_Ok (f : A → result B) (a : A) : Ok a ≫= f = f a.
Proof. reflexivity. Qed.

Lemma bind_Raise (f : A → result B) (e : exn) : Raise e ≫= f = Raise e.
Proof. reflexivity. Qed.

Lemma bind_Ok_inv (f : A → result B) (r : result A) (b : B) :
  r ≫= f = Ok b → ∃ a, r = Ok a ∧ f a = Ok b.
Proof. destruct r as [a|e]; [eauto | discriminate]. Qed.

Lemma try_except_returns (body : result A) (a : A) :
  ∃ a', try_except body (Ok a) = Ok a'.
Proof. destruct body; simpl; eauto. Qed.
End result_facts.

(** ** [list.remove] *)

Section list_remove_facts.
Context {A : Type} `{EqDecision A}.
Implicit Types (x y : A) (l k : list A).

Lemma list_remove_absent x l : x ∉ l → list_remove x l = Raise ValueError.
Proof.
  induction l as [|y l IH]; [done|].
  intros [Hxy Hl]%not_elem_of_cons. simpl.
  rewrite decide_False by done. by rewrite IH.
Qed.

Lemma list_remove_present x l : x ∈ l → ∃ l', list_remove x l = Ok l'.
Proof.
  induction l as [|y l IH]; [by intros ?%elem_of_nil|].
  intros Hin. simpl. destruct (decide (x = y)) as [->|Hne]; [eauto|].
  apply elem_of_cons in Hin as [?|Hin]; [done|].
  destruct (IH Hin) as [l' ->]. eauto.
Qed.

(** The only exception [remove] knows is [ValueError]. *)
Lemma list_remove_Raise x l e : list_remove x l = Raise e → e = ValueError ∧ x ∉ l.
Proof.
  induction l as [|y l IH]; simpl.
  - intros [= <-]. split; [done|]. apply not_elem_of_nil.
  - destruct (decide (x = y)) as [->|Hne]; [discriminate|].
    destruct (list_remove x l) as [l'|e'] eqn:E; [discriminate|].
    intros [= <-]. destruct (IH eq_refl) as [-> Hl]. split; [done|].
    by apply not_elem_of_cons.
Qed.

Lemma filter_ne_absent x l : x ∉ l → filter (λ y, y ≠ x) l = l.
Proof.
  induction l as [|y l IH]; [done|].
  intros [Hxy Hl]%not_elem_of_cons.
  rewrite filter_cons_True by congruence. by rewrite IH.
Qed.

(** On a list without repetition, removing the first occurrence removes
    every occurrence. *)
Lemma list_remove_NoDup x l :
  NoDup l → x ∈ l → list_remove x l = Ok (filter (λ y, y ≠ x) l).
Proof.
  induction 1 as [|y l Hy Hnd IH]; [by intros ?%elem_of_nil|].
  intros Hin. simpl. destruct (decide (x = y)) as [->|Hne].
  - rewrite filter_cons_False by (intros ?; done).
    by rewrite filter_ne_absent.
  - apply elem_of_cons in Hin as [?|Hin]; [done|].
    rewrite IH by done. simpl.
    by rewrite filter_cons_True by congruence.
Qed.

(** Elements in front that differ from [x] are passed over. *)
Lemma list_remove_app_r x k l :
  x ∉ k → list_remove x (k ++ l) = (k ++.) <$> list_remove x l.
Proof.
  induction k as [|y k IH]; simpl.
  - intros _. by destruct (list_remove x l).
  - intros [Hxy Hk]%not_elem_of_cons. rewrite decide_False by done.
    rewrite IH by done. by destruct (list_remove x l).
Qed.

Lemma list_remove_fmap {B} `{EqDecision B} (f : A → B) `{!Inj (=) (=) f} x l :
  list_remove (f x) (f <$> l) = (fmap f : list A → list B) <$> list_remove x l.
Proof.
  induction l as [|y l IH]; [done|]. csimpl.
  destruct (decide (x = y)) as [->|Hne].
  - by rewrite decide_True.
  - rewrite decide_False by (intros ?%(inj f); done).
    rewrite IH. by destruct (list_remove x l).
Qed.
End list_remove_facts.

(** ** The comprehension over the flag datasets *)

Section comprehension_facts.
Import Np H5 DenovoIndex Spec.
Implicit Types (its : list (string * node)) (ft : string).

Lemma flagged_cons key val its :
  flagged ((key, val) :: its) =
    if populated val then key :: flagged its else flagged its.
Proof.
  unfold flagged. rewrite filter_cons. simpl.
  destruct (populated val); by case_decide.
Qed.

(** When every member can be read and tested, the comprehension
    returns the populated names under the field type. *)
Lemma comprehension_readable ft its :
  Forall (λ it, readable it.2) its →
  comprehension ft its = Ok (pair ft <$> flagged its).
Proof.
  induction 1 as [|[key val] its Hval _ IH]; [done|].
  rewrite flagged_cons. simpl in *.
  destruct val as [v| |]; simpl in *; try done.
  destruct (truth v) as [[]|]; simpl in *; try done; by rewrite IH.
Qed.

(** Otherwise it raises, and what it raises is the [AttributeError] of
    [.value] or the [ValueError] of the truth test. *)
Lemma comprehension_unreadable ft its :
  ¬ Forall (λ it, readable it.2) its →
  ∃ e, comprehension ft its = Raise e ∧ (e = AttributeError ∨ e = ValueError).
Proof.
  induction its as [|[key val] its IH]; [by intros []|].
  intros Hnot. simpl.
  destruct val as [v| |]; simpl; eauto.
  destruct v as [x|[|x [|y xs]]|[|f [|f' fs]]]; simpl; eauto.
  all: destruct IH as (e & -> & He);
    [by intros ?; apply Hnot; constructor | by eauto].
Qed.


Lemma comprehension_Ok_inv ft its fl :
  comprehension ft its = Ok fl →
  Forall (λ it, readable it.2) its ∧ fl = pair ft <$> flagged its.
Proof.
  intros Hc. destruct (decide (Forall (λ it, readable it.2) its)) as [Hr|Hr].
  - split; [done|]. rewrite comprehension_readable in Hc by done. congruence.
  - destruct (comprehension_unreadable ft its Hr) as (e & He & _). congruence.
Qed.

Lemma elem_of_flagged its name :
  name ∈ flagged its ↔ ∃ val, (name, val) ∈ its ∧ populated val.
Proof.
  unfold flagged. rewrite list_elem_of_fmap. split.
  - intros ([k val] & -> & [Hp Hin]%list_elem_of_filter). eauto.
  - intros (val & Hin & Hp). exists (name, val). split; [done|].
    by apply list_elem_of_filter.
Qed.

Lemma NoDup_flagged its : NoDup its.*1 → NoDup (flagged its).
Proof.
  intros Hnd. eapply sublist_NoDup; [exact Hnd|].
  unfold flagged. apply fmap_sublist, sublist_filter.
Qed.

(** In the listing of a group, being flagged is a fact about the
    member of that name. *)
Lemma elem_of_flagged_members (members : gmap string node) name :
  name ∈ flagged (map_to_list members) ↔
  ∃ v, members !! name = Some (Dataset v) ∧ truth v = Ok true.
Proof.
  rewrite elem_of_flagged. split.
  - intros (val & Hin%elem_of_map_to_list & Hp).
    destruct val as [v| |]; simpl in Hp; try done.
    exists v. split; [done|]. by destruct (truth v) as [[]|].
  - intros (v & Hm & Ht). exists (Dataset v).
    split; [by apply elem_of_map_to_list|]. simpl. by rewrite Ht.
Qed.

Lemma readable_members (members : gmap string node) :
  Forall (λ it, readable it.2) (map_to_list members) ↔
  ∀ name val, members !! name = Some val → readable val.
Proof.
  rewrite list.Forall_forall. split.
  - intros H name val Hm. by apply (H (name, val)), elem_of_map_to_list.
  - intros H [name val] Hin%elem_of_map_to_list. by eapply H.
Qed.

End comprehension_facts.

(** ** The two removals *)

Section drop_unsupported_facts.
Import Np H5 DenovoIndex Spec.
Implicit Types (ft name : string) (names : list string)
  (acc new : list field).

#[local] Instance pair_inj ft : Inj (=) (=) (pair ft : string → field).
Proof. by intros ?? [=]. Qed.

(** Entries in front that are neither of the two pairs stay where they
    are. *)
Lemma drop_unsupported_app ft acc new :
  (ft, "angular_mesh") ∉ acc → (ft, "block") ∉ acc →
  drop_unsupported ft (acc ++ new) = (acc ++.) <$> drop_unsupported ft new.
Proof.
  intros Ha Hb. unfold drop_unsupported.
  rewrite (bool_decide_ext _ ((ft, "angular_mesh") ∈ new))
    by (rewrite elem_of_app; tauto).
  case_bool_decide as Hin.
  - rewrite (list_remove_app_r (ft, "angular_mesh")) by done.
    destruct (list_remove (ft, "angular_mesh") new) as [new'|]; [simpl|done].
    by rewrite (list_remove_app_r (ft, "block")).
  - simpl. by rewrite (list_remove_app_r (ft, "block")).
Qed.

Lemma filter_supported names :
  filter (λ name, name ≠ "block") (filter (λ name, name ≠ "angular_mesh") names)
  = filter (λ name, ¬ unsupported name) names.
Proof.
  rewrite list_filter_filter. apply list_filter_iff. intros name.
  unfold unsupported. rewrite orb_True, !bool_decide_spec. tauto.
Qed.

Lemma remove_block_fmap ft names :
  NoDup names →
  list_remove (ft, "block") (pair ft <$> names) =
    if bool_decide ("block" ∈ names)
    then Ok (pair ft <$> filter (λ name, name ≠ "block") names)
    else Raise ValueError.
Proof.
  intros Hnd. rewrite (list_remove_fmap (pair ft)). case_bool_decide as Hin.
  - by rewrite list_remove_NoDup.
  - by rewrite list_remove_absent.
Qed.

(** On the entries of one field type, listed without repetition: the
    removals succeed exactly when ['block'] is listed, and leave the
    supported names. *)
Lemma drop_unsupported_fmap ft names :
  NoDup names →
  drop_unsupported ft (pair ft <$> names) =
    if bool_decide ("block" ∈ names)
    then Ok (pair ft <$> filter (λ name, ¬ unsupported name) names)
    else Raise ValueError.
Proof.
  intros Hnd. unfold drop_unsupported.
  rewrite (bool_decide_ext _ ("angular_mesh" ∈ names))
    by apply (list_elem_of_fmap_inj _).
  case_bool_decide as Hin.
  - rewrite (list_remove_fmap (pair ft)), list_remove_NoDup by done. simpl.
    rewrite remove_block_fmap
      by (eapply sublist_NoDup; [done | apply sublist_filter]).
    rewrite (bool_decide_ext _ ("block" ∈ names))
      by (rewrite list_elem_of_filter; intuition congruence).
    by rewrite filter_supported.
  - simpl. rewrite remove_block_fmap by done.
    by rewrite <- filter_supported, (filter_ne_absent "angular_mesh").
Qed.
End drop_unsupported_facts.

(** ** [_create_group_fields] and the loop over the groups *)

Section detect_facts.
Import Np H5 DenovoIndex Spec.
Implicit Types (ft name : string) (acc fl : list field) (fhandle : file)
  (members : gmap string node) (parameters : gmap string value).

Lemma supported_only_nil : supported_only [].
Proof. by intros ft name ?%elem_of_nil. Qed.

Lemma supported_only_absent acc ft :
  supported_only acc →
  ((ft, "angular_mesh") ∉ acc) ∧ ((ft, "block") ∉ acc).
Proof. intros H. split; intros Hin; by apply H in Hin. Qed.

Lemma elem_of_kept ft its ft' name :
  (ft', name) ∈ kept ft its ↔
  ft' = ft ∧ (¬ unsupported name) ∧ name ∈ flagged its.
Proof.
  unfold kept. rewrite list_elem_of_fmap. split.
  - intros (n & [= -> ->] & [? ?]%list_elem_of_filter). done.
  - intros (-> & ? & ?). exists name. split; [done|].
    by apply list_elem_of_filter.
Qed.

Lemma supported_only_app_kept acc ft its :
  supported_only acc → supported_only (acc ++ kept ft its).
Proof.
  intros H ft' name [Hin|Hin]%elem_of_app; [by eapply H|].
  by apply elem_of_kept in Hin as (_ & ? & _).
Qed.

(** The steps shared by both branches, once the listing is at hand:
    comprehension, then the two removals. *)
Lemma list_fields_readable ft acc members :
  supported_only acc →
  Forall (λ it, readable it.2) (map_to_list members) →
  (new ← comprehension ft (map_to_list members);
   drop_unsupported ft (acc ++ new)) =
    if bool_decide ("block" ∈ flagged (map_to_list members))
    then Ok (acc ++ kept ft (map_to_list members))
    else Raise ValueError.
Proof.
  intros Hacc Hr. rewrite comprehension_readable by done. simpl.
  destruct (supported_only_absent acc ft Hacc) as [Ha Hb].
  rewrite drop_unsupported_app by done.
  rewrite drop_unsupported_fmap
    by apply NoDup_flagged, NoDup_fst_map_to_list.
  by case_bool_decide.
Qed.

Lemma list_fields_unreadable ft acc members :
  ¬ Forall (λ it, readable it.2) (map_to_list members) →
  ∃ e, (new ← comprehension ft (map_to_list members);
        drop_unsupported ft (acc ++ new)) = Raise e
       ∧ (e = AttributeError ∨ e = ValueError).
Proof.
  intros Hr. destruct (comprehension_unreadable ft _ Hr) as (e & -> & He).
  eauto.
Qed.

(** What one listing either returns or raises. *)
Lemma list_fields_cases ft acc members :
  supported_only acc →
  let r := (new ← comprehension ft (map_to_list members);
            drop_unsupported ft (acc ++ new)) in
  (Forall (λ it, readable it.2) (map_to_list members)
   ∧ "block" ∈ flagged (map_to_list members)
   ∧ r = Ok (acc ++ kept ft (map_to_list members)))
  ∨ (∃ e, r = Raise e ∧ (e = AttributeError ∨ e = ValueError)).
Proof.
  intros Hacc r.
  destruct (decide (Forall (λ it, readable it.2) (map_to_list members)))
    as [Hr|Hr].
  - subst r. rewrite list_fields_readable by done.
    case_bool_decide; [left | right]; eauto.
  - right. by apply list_fields_unreadable.
Qed.

(** *** The label of a group *)

Lemma egroup_label_Integer z : egroup_label (Integer z) = Ok (egroup z).
Proof. done. Qed.

Lemma egroup_label_Some g z :
  group_number g = Some z → egroup_label g = Ok (egroup z).
Proof. destruct g as [z'|[q|]]; intros [= <-]; done. Qed.

Lemma egroup_label_None g :
  group_number g = None → egroup_label g = Raise ValueError.
Proof. by destruct g as [z'|[q|]]. Qed.

(** The integers behind the components of an array: those of an integer
    array are its components, those of a float array without NaN are
    its components cut off. *)
Lemma group_numbers_VArray zs :
  Forall2 (λ g z, group_number g = Some z) (Integer <$> zs) zs.
Proof. induction zs; constructor; done. Qed.

Lemma group_numbers_VFloats fs :
  NaN ∉ fs →
  Forall2 (λ g z, group_number g = Some z)
    (Floating <$> fs) (omap float_group fs).
Proof.
  induction fs as [|[q|] fs IH]; intros Hn; csimpl.
  - constructor.
  - constructor; [done|]. apply IH. intros ?. apply Hn. by right.
  - destruct Hn. by left.
Qed.

Lemma create_group_fields_listing fhandle group z acc members :
  group_number group = Some z →
  file_getitem fhandle hdf5_db = Ok (Group members) →
  _create_group_fields fhandle group acc =
    (new ← comprehension (egroup z) (map_to_list members);
     drop_unsupported (egroup z) (acc ++ new)).
Proof.
  intros Hz Hf. unfold _create_group_fields.
  rewrite (egroup_label_Some _ z) by done. simpl. by rewrite Hf.
Qed.

Lemma create_group_fields_nan fhandle group acc :
  group_number group = None →
  _create_group_fields fhandle group acc = Raise ValueError.
Proof.
  intros Hz. unfold _create_group_fields.
  by rewrite egroup_label_None.
Qed.

(** The listing the loop reads does not change between groups, so the
    loop returns exactly when one call does. *)
Lemma for_groups_Ok fhandle members groups zs acc :
  file_getitem fhandle hdf5_db = Ok (Group members) →
  Forall (λ it, readable it.2) (map_to_list members) →
  "block" ∈ flagged (map_to_list members) →
  supported_only acc →
  Forall2 (λ g z, group_number g = Some z) groups zs →
  for_groups fhandle groups acc =
    Ok (acc ++ mjoin ((λ z, kept (egroup z) (map_to_list members))
                        <$> zs)).
Proof.
  intros Hf Hr Hb Hacc Hzs. revert acc Hacc.
  induction Hzs as [|g z groups zs Hz Hzs IH]; intros acc Hacc; simpl.
  - by rewrite app_nil_r.
  - rewrite (create_group_fields_listing _ _ z _ members) by done.
    rewrite list_fields_readable by done.
    rewrite bool_decide_eq_true_2 by done. simpl.
    rewrite IH by by apply supported_only_app_kept.
    by rewrite <- (assoc_L (++)).
Qed.

(** The loop returns only if every component has a label. *)
Lemma for_groups_Ok_labels fhandle groups acc fl :
  for_groups fhandle groups acc = Ok fl →
  Forall (λ g, is_Some (group_number g)) groups.
Proof.
  revert acc. induction groups as [|g groups IH]; intros acc H; [done|].
  simpl in H.
  destruct (group_number g) as [z|] eqn:Hz.
  - constructor; [by rewrite Hz|].
    destruct (_create_group_fields fhandle g acc) as [acc'|]; [|done].
    by eapply IH.
  - by rewrite create_group_fields_nan in H.
Qed.

Lemma for_groups_Raise fhandle members g groups acc :
  file_getitem fhandle hdf5_db = Ok (Group members) →
  supported_only acc →
  ¬ (Forall (λ it, readable it.2) (map_to_list members)
     ∧ "block" ∈ flagged (map_to_list members)) →
  ∃ e, for_groups fhandle (g :: groups) acc = Raise e
       ∧ (e = AttributeError ∨ e = ValueError).
Proof.
  intros Hf Hacc Hnot. simpl.
  destruct (group_number g) as [z|] eqn:Hz.
  - rewrite (create_group_fields_listing _ _ z _ members) by done.
    destruct (list_fields_cases (egroup z) acc members Hacc)
      as [(? & ? & _)|(e & -> & He)]; [tauto | eauto].
  - rewrite create_group_fields_nan by done. eauto.
Qed.


(** *** The ways [_detect_output_fields] can start *)

Lemma no_groups_absent parameters :
  parameters !! "mesh_g" = None ∨ parameters !! "mesh_g" = Some (VArray []) →
  no_groups parameters.
Proof. unfold no_groups. tauto. Qed.

Lemma detect_fallback parameters fhandle :
  no_groups parameters →
  _detect_output_fields parameters fhandle =
    (db ← file_getitem fhandle hdf5_db;
     its ← items db;
     field_list ← comprehension "denovo" its;
     drop_unsupported "denovo" field_list).
Proof.
  intros [Hg|[Hg|Hg]]; unfold _detect_output_fields, dict_getitem;
    by rewrite Hg.
Qed.

Lemma detect_fallback_listing parameters fhandle members :
  no_groups parameters →
  file_getitem fhandle hdf5_db = Ok (Group members) →
  _detect_output_fields parameters fhandle =
    (new ← comprehension "denovo" (map_to_list members);
     drop_unsupported "denovo" ([] ++ new)).
Proof. intros Hg Hf. rewrite detect_fallback by done. by rewrite Hf. Qed.

Lemma detect_groups parameters fhandle g gs :
  parameters !! "mesh_g" = Some (VArray (g :: gs)) →
  _detect_output_fields parameters fhandle =
    for_groups fhandle (Integer <$> g :: gs) [].
Proof.
  intros Hg. unfold _detect_output_fields, dict_getitem. by rewrite Hg.
Qed.

Lemma detect_float_groups parameters fhandle f fs :
  parameters !! "mesh_g" = Some (VFloats (f :: fs)) →
  _detect_output_fields parameters fhandle =
    for_groups fhandle (Floating <$> f :: fs) [].
Proof.
  intros Hg. unfold _detect_output_fields, dict_getitem. by rewrite Hg.
Qed.

Lemma detect_scalar parameters fhandle x :
  parameters !! "mesh_g" = Some (VScalar x) →
  _detect_output_fields parameters fhandle = Raise TypeError.
Proof.
  intros Hg. unfold _detect_output_fields, dict_getitem. by rewrite Hg.
Qed.

Lemma kept_groups groups its :
  mjoin ((λ g, kept (egroup g) its) <$> groups) =
  mjoin ((λ ft, kept ft its) <$> (egroup <$> groups)).
Proof. by rewrite <- list_fmap_compose. Qed.

(** *** When it returns, and what *)

Lemma detect_Ok parameters fhandle members :
  file_getitem fhandle hdf5_db = Ok (Group members) →
  Forall (λ it, readable it.2) (map_to_list members) →
  "block" ∈ flagged (map_to_list members) →
  (∀ x, parameters !! "mesh_g" ≠ Some (VScalar x)) →
  (∀ fs, parameters !! "mesh_g" = Some (VFloats fs) → NaN ∉ fs) →
  _detect_output_fields parameters fhandle =
    Ok (expected_fields parameters members).
Proof.
  intros Hf Hr Hb Hg Hn. unfold expected_fields, field_types.
  assert (no_groups parameters →
    _detect_output_fields parameters fhandle =
      Ok (mjoin ((λ ft, kept ft (map_to_list members)) <$> ["denovo"])))
    as Hnone.
  { intros Hno. rewrite (detect_fallback_listing _ _ members) by auto.
    rewrite list_fields_readable by auto using supported_only_nil.
    rewrite bool_decide_eq_true_2 by done. simpl. by rewrite app_nil_r. }
  destruct (parameters !! "mesh_g") as [[x|[|g gs]|[|f fs]]|] eqn:E.
  - by destruct (Hg x).
  - apply Hnone. unfold no_groups. auto.
  - rewrite (detect_groups _ _ g gs) by done.
    rewrite (for_groups_Ok _ members _ (g :: gs));
      auto using supported_only_nil, group_numbers_VArray.
    by rewrite kept_groups.
  - apply Hnone. unfold no_groups. auto.
  - rewrite (detect_float_groups _ _ f fs) by done.
    rewrite (for_groups_Ok _ members _ (omap float_group (f :: fs)));
      auto using supported_only_nil, group_numbers_VFloats.
    by rewrite kept_groups.
  - apply Hnone. unfold no_groups. auto.
Qed.

(** Whatever the parameters, nothing is returned unless the listing is
    there, readable, and flags ['block']. *)
Lemma detect_Raise parameters fhandle :
  ¬ (∃ members, file_getitem fhandle hdf5_db = Ok (Group members)
       ∧ Forall (λ it, readable it.2) (map_to_list members)
       ∧ "block" ∈ flagged (map_to_list members)) →
  ∃ e, _detect_output_fields parameters fhandle = Raise e.
Proof.
  intros Hnot.
  assert (∀ ft, ∃ e,
    (db ← file_getitem fhandle hdf5_db; its ← items db;
     new ← comprehension ft its; drop_unsupported ft ([] ++ new)) = Raise e)
    as Hone.
  { intros ft.
    destruct (file_getitem fhandle hdf5_db) as [[v|members|]|e] eqn:Hf;
      simpl; eauto.
    destruct (list_fields_cases ft [] members supported_only_nil)
      as [(? & ? & _)|(e & He & _)]; [|by exists e].
    destruct Hnot. eauto. }
  assert (∀ g groups, ∃ e, for_groups fhandle (g :: groups) [] = Raise e)
    as Hloop.
  { intros g groups. simpl. unfold _create_group_fields.
    destruct (egroup_label g) as [ft|e]; simpl; [|eauto].
    destruct (Hone ft) as [e He]. exists e.
    destruct (file_getitem fhandle hdf5_db) as [db|]; [simpl in *|done].
    destruct (items db) as [its|]; [simpl in *|done].
    destruct (comprehension ft its) as [new|]; [simpl in *|done].
    by rewrite He. }
  destruct (parameters !! "mesh_g") as [[x|[|g gs]|[|f fs]]|] eqn:E.
  - rewrite (detect_scalar _ _ x) by done. eauto.
  - rewrite detect_fallback by (unfold no_groups; auto). apply Hone.
  - rewrite (detect_groups _ _ g gs) by done. apply Hloop.
  - rewrite detect_fallback by (unfold no_groups; auto). apply Hone.
  - rewrite (detect_float_groups _ _ f fs) by done. apply Hloop.
  - rewrite detect_fallback by (unfold no_groups; auto). apply Hone.
Qed.

(** A float group list that holds a NaN has no label for it, and
    nothing is returned. *)
Lemma detect_Ok_nan_free parameters fhandle fl :
  _detect_output_fields parameters fhandle = Ok fl →
  ∀ fs, parameters !! "mesh_g" = Some (VFloats fs) → NaN ∉ fs.
Proof.
  intros Hd [|f fs] Hg; [by intros ?%elem_of_nil|].
  rewrite (detect_float_groups _ _ f fs) in Hd by done.
  apply for_groups_Ok_labels in Hd.
  intros Hin. rewrite list.Forall_forall in Hd.
  destruct (Hd (Floating NaN)) as [z Hz]; [|done].
  apply list_elem_of_fmap. eauto.
Qed.

Lemma detect_Ok_inv parameters fhandle fl :
  _detect_output_fields parameters fhandle = Ok fl →
  ∃ members,
    file_getitem fhandle hdf5_db = Ok (Group members)
    ∧ Forall (λ it, readable it.2) (map_to_list members)
    ∧ "block" ∈ flagged (map_to_list members)
    ∧ (∀ x, parameters !! "mesh_g" ≠ Some (VScalar x))
    ∧ fl = expected_fields parameters members.
Proof.
  intros Hd.
  assert (∀ x, parameters !! "mesh_g" ≠ Some (VScalar x)) as Hg.
  { intros x Hx. rewrite (detect_scalar _ _ x) in Hd by done. discriminate. }
  pose proof (detect_Ok_nan_free _ _ _ Hd) as Hn.
  destruct (file_getitem fhandle hdf5_db) as [[v|members|]|e] eqn:Hf.
  2: destruct (decide (Forall (λ it, readable it.2) (map_to_list members)
                       ∧ "block" ∈ flagged (map_to_list members)))
       as [[Hr Hb]|Hnot].
  2: { exists members. rewrite (detect_Ok _ _ members) in Hd by done.
       injection Hd as <-. done. }
  all: destruct (detect_Raise parameters fhandle) as [e' He'];
    [|congruence].
  all: intros (members' & Hf' & Hr & Hb); rewrite Hf in Hf'; try done.
  injection Hf' as <-. tauto.
Qed.

End detect_facts.

(** * Field detection *)

Section field_detection.
Import Np H5 DenovoIndex Spec.

Lemma elem_of_expected_fields parameters members ft name :
  (ft, name) ∈ expected_fields parameters members ↔
  ft ∈ field_types parameters ∧ (¬ unsupported name)
  ∧ name ∈ flagged (map_to_list members).
Proof.
  unfold expected_fields. rewrite list_elem_of_join. split.
  - intros (l & Hin & (ft' & -> & Hft)%list_elem_of_fmap).
    apply elem_of_kept in Hin as (-> & ? & ?). done.
  - intros (Hft & ? & ?). exists (kept ft (map_to_list members)). split.
    + by apply elem_of_kept.
    + apply list_elem_of_fmap. eauto.
Qed.

Lemma field_types_inhabited parameters :
  (∀ fs, parameters !! "mesh_g" = Some (VFloats fs) → NaN ∉ fs) →
  ∃ ft, ft ∈ field_types parameters.
Proof.
  intros Hn. unfold field_types.
  destruct (parameters !! "mesh_g") as [[x|[|g gs]|[|[q|] fs]]|]; csimpl;
    try (eexists; apply list_elem_of_here).
  destruct (Hn (NaN :: fs)); [done | by left].
Qed.

Lemma unsupported_spec name :
  unsupported name ↔ name = "angular_mesh" ∨ name = "block".
Proof. unfold unsupported. by rewrite orb_True, !bool_decide_spec. Qed.

Lemma block_flagged members :
  (∃ v, members !! "block" = Some (Dataset v) ∧ truth v = Ok true) →
  "block" ∈ flagged (map_to_list members).
Proof. intros ?. by apply elem_of_flagged_members. Qed.


(** C2. With [mesh_g = []] (no energy groups): every field list that
    [_detect_output_fields] returns has ['denovo'] as the type of each
    entry, does not contain [('denovo', 'block')] and does not contain
    [('denovo', 'angular_mesh')], whether or not that name was
    enumerated; and a field list is returned, namely the supported
    populated names under ['denovo'], whenever the flag group exists,
    its members can be read and ['block'] is populated. *)
Theorem C2_fallback_field_list parameters fhandle :
  parameters !! "mesh_g" = Some (VArray []) →
  (∀ fl, _detect_output_fields parameters fhandle = Ok fl →
     (∀ ft name, (ft, name) ∈ fl → ft = "denovo")
     ∧ (("denovo", "block") ∉ fl)
     ∧ (("denovo", "angular_mesh") ∉ fl))
  ∧ (∀ members,
       file_getitem fhandle hdf5_db = Ok (Group members) →
       (∀ name val, members !! name = Some val → readable val) →
       (∃ v, members !! "block" = Some (Dataset v) ∧ truth v = Ok true) →
       _detect_output_fields parameters fhandle =
         Ok (kept "denovo" (map_to_list members))).
Proof.
  intros Hg.
  assert (∀ members, expected_fields parameters members
                     = kept "denovo" (map_to_list members)) as Hexp.
  { intros members. unfold expected_fields, field_types. rewrite Hg. simpl.
    apply app_nil_r. }
  split.
  - intros fl (members & _ & _ & _ & _ & ->)%detect_Ok_inv.
    rewrite Hexp. repeat split.
    + by intros ft name (-> & _)%elem_of_kept.
    + intros (_ & Hu & _)%elem_of_kept. apply Hu, unsupported_spec. auto.
    + intros (_ & Hu & _)%elem_of_kept. apply Hu, unsupported_spec. auto.
  - intros members Hf Hr Hb. rewrite <- Hexp. apply detect_Ok; [done| | | |].
    + by apply readable_members.
    + by apply block_flagged.
    + intros x. rewrite Hg. discriminate.
    + intros fs. rewrite Hg. discriminate.
Qed.

Lemma C2_fallback_field_list_witness :
  let parameters : gmap string value := {[ "mesh_g" := VArray [] ]} in
  parameters !! "mesh_g" = Some (VArray [])
  ∧ ∃ fl, _detect_output_fields parameters Samples.ungrouped = Ok fl
          ∧ (("denovo", "block") ∉ fl).
Proof.
  intros parameters.
  assert (parameters !! "mesh_g" = Some (VArray [])) as Hg
    by (vm_compute; reflexivity).
  split; [exact Hg|].
  destruct (C2_fallback_field_list parameters Samples.ungrouped Hg)
    as [Hall _].
  exists [("denovo", "flux")].
  assert (_detect_output_fields parameters Samples.ungrouped
          = Ok [("denovo", "flux")]) as Hd by (vm_compute; reflexivity).
  split; [exact Hd|]. apply (Hall _ Hd).
Defined.

(** C7. With [mesh_g = [1, 2]] the field types are exactly
    ["egroup_001"] and ["egroup_002"] (the group number padded with
    zeros to three digits); every field list that is returned is the
    field list of the first followed by the field list of the second,
    each the supported populated names of the flag group; and it is
    returned whenever the flag group exists, its members can be read and
    ['block'] is populated. *)
Theorem C7_two_energy_groups parameters fhandle :
  parameters !! "mesh_g" = Some (VArray [1; 2]%Z) →
  (egroup 1 = "egroup_001" ∧ egroup 2 = "egroup_002")
  ∧ (∀ fl, _detect_output_fields parameters fhandle = Ok fl →
       ∃ members,
         file_getitem fhandle hdf5_db = Ok (Group members)
         ∧ fl = kept "egroup_001" (map_to_list members)
                ++ kept "egroup_002" (map_to_list members))
  ∧ (∀ members,
       file_getitem fhandle hdf5_db = Ok (Group members) →
       (∀ name val, members !! name = Some val → readable val) →
       (∃ v, members !! "block" = Some (Dataset v) ∧ truth v = Ok true) →
       _detect_output_fields parameters fhandle =
         Ok (kept "egroup_001" (map_to_list members)
             ++ kept "egroup_002" (map_to_list members))).
Proof.
  intros Hg.
  assert (field_types parameters = ["egroup_001"; "egroup_002"]) as Hft
    by (unfold field_types; by rewrite Hg).
  assert (∀ members, expected_fields parameters members
                     = kept "egroup_001" (map_to_list members)
                       ++ kept "egroup_002" (map_to_list members)) as Hexp.
  { intros members. unfold expected_fields. rewrite Hft. simpl.
    by rewrite app_nil_r. }
  split; [by vm_compute|]. split.
  - intros fl (members & Hf & _ & _ & _ & ->)%detect_Ok_inv.
    exists members. by rewrite Hexp.
  - intros members Hf Hr Hb. rewrite <- Hexp. apply detect_Ok; [done| | | |].
    + by apply readable_members.
    + by apply block_flagged.
    + intros x. rewrite Hg. discriminate.
    + intros fs. rewrite Hg. discriminate.
Qed.

Lemma C7_two_energy_groups_witness :
  let parameters : gmap string value := {[ "mesh_g" := VArray [1; 2]%Z ]} in
  parameters !! "mesh_g" = Some (VArray [1; 2]%Z)
  ∧ (egroup 1 = "egroup_001" ∧ egroup 2 = "egroup_002")
  ∧ ∃ members,
      file_getitem Samples.grouped hdf5_db = Ok (Group members)
      ∧ [("egroup_001", "flux"); ("egroup_002", "flux")]
        = kept "egroup_001" (map_to_list members)
          ++ kept "egroup_002" (map_to_list members).
Proof.
  intros parameters.
  assert (parameters !! "mesh_g" = Some (VArray [1; 2]%Z)) as Hg
    by (vm_compute; reflexivity).
  split; [exact Hg|].
  destruct (C7_two_energy_groups parameters Samples.grouped Hg)
    as (Hft & Hall & _).
  split; [exact Hft|]. apply Hall. vm_compute. reflexivity.
Defined.

(** C3, as amended.  Whenever [_detect_output_fields] returns a field
    list, a dataset of the flag group is listed (under some field type)
    if and only if its stored value is true and its name is neither
    ['block'] nor ['angular_mesh']; and the stored value of every such
    dataset has a truth value. *)
Theorem C3_listed_iff_populated_and_supported parameters fhandle members fl :
  file_getitem fhandle hdf5_db = Ok (Group members) →
  _detect_output_fields parameters fhandle = Ok fl →
  ∀ name v, members !! name = Some (Dataset v) →
    ((∃ ft, (ft, name) ∈ fl) ↔
       truth v = Ok true ∧ name ≠ "block" ∧ name ≠ "angular_mesh")
    ∧ (truth v = Ok true ∨ truth v = Ok false).
Proof.
  intros Hf Hd name v Hv.
  pose proof (detect_Ok_nan_free _ _ _ Hd) as Hn.
  apply detect_Ok_inv in Hd as (members' & Hf' & Hr & _ & _ & ->).
  rewrite Hf in Hf'. injection Hf' as <-.
  assert (name ∈ flagged (map_to_list members) ↔ truth v = Ok true) as Hfl.
  { rewrite elem_of_flagged_members. split; [|by eauto].
    intros (v' & Hv' & Ht). congruence. }
  split.
  - split.
    + intros (ft & (_ & Hu & Hin)%elem_of_expected_fields).
      rewrite unsupported_spec in Hu. apply Hfl in Hin. tauto.
    + intros (Ht & Hb & Ha).
      destruct (field_types_inhabited parameters Hn) as [ft Hft].
      exists ft. apply elem_of_expected_fields. split; [done|].
      split; [|by apply Hfl]. rewrite unsupported_spec. tauto.
  - pose proof (proj1 (readable_members members) Hr name _ Hv) as Hrd.
    simpl in Hrd. destruct (truth v) as [[]|]; by eauto.
Qed.

Lemma C3_listed_iff_populated_and_supported_witness :
  file_getitem Samples.plain hdf5_db = Ok (Group Samples.flags)
  ∧ _detect_output_fields ∅ Samples.plain = Ok [("denovo", "flux")]
  ∧ Samples.flags !! "source" = Some (Dataset (VScalar 0))
  ∧ ((∃ ft, (ft, "source") ∈ [("denovo", "flux")]) ↔
       truth (VScalar 0) = Ok true
       ∧ "source" ≠ "block" ∧ "source" ≠ "angular_mesh").
Proof.
  assert (file_getitem Samples.plain hdf5_db = Ok (Group Samples.flags))
    as Hf by (vm_compute; reflexivity).
  assert (_detect_output_fields ∅ Samples.plain = Ok [("denovo", "flux")])
    as Hd by (vm_compute; reflexivity).
  assert (Samples.flags !! "source" = Some (Dataset (VScalar 0)))
    as Hv by (vm_compute; reflexivity).
  repeat (split; [assumption|]).
  apply (C3_listed_iff_populated_and_supported
           ∅ Samples.plain Samples.flags _ Hf Hd "source" _ Hv).
Defined.

(** The claim as written fails on ['block']: its dataset is populated
    and the field list has no entry of that name. *)
Lemma C3_block_populated_but_not_listed :
  file_getitem Samples.plain hdf5_db = Ok (Group Samples.flags)
  ∧ Samples.flags !! "block" = Some (Dataset (VScalar 1))
  ∧ truth (VScalar 1) = Ok true
  ∧ ∃ fl, _detect_output_fields ∅ Samples.plain = Ok fl
          ∧ ¬ ∃ ft, (ft, "block") ∈ fl.
Proof.
  split; [by vm_compute|]. split; [by vm_compute|]. split; [done|].
  exists [("denovo", "flux")]. split; [by vm_compute|].
  intros (ft & Hin). apply list_elem_of_singleton in Hin. congruence.
Qed.



End field_detection.

(** * The format validator *)

Section is_valid.
Import Np H5 DenovoDataset.
Variable h5py_File : string → result file.
Implicit Types (args : list string) (name : string) (fileh : file).

(** What the [try] block computes once the file is open. *)
Lemma is_valid_opened args name fileh :
  args !! 0 = Some name → h5py_File name = Ok fileh →
  _is_valid h5py_File args =
    Ok (bool_decide (is_Some (root fileh !! "denovo"))
        || bool_decide (is_Some (root fileh !! "denovo-forward"))).
Proof.
  intros Ha Hf. unfold _is_valid, seq_getitem. rewrite Ha. simpl.
  rewrite Hf. simpl. by destruct (bool_decide _).
Qed.

Lemma is_valid_not_opened args name e :
  args !! 0 = Some name → h5py_File name = Raise e →
  _is_valid h5py_File args = Ok false.
Proof.
  intros Ha Hf. unfold _is_valid, seq_getitem. rewrite Ha. simpl.
  by rewrite Hf.
Qed.

Lemma is_valid_no_argument args :
  args !! 0 = None → _is_valid h5py_File args = Ok false.
Proof. intros Ha. unfold _is_valid, seq_getitem. by rewrite Ha. Qed.

(** C1, as amended.  [_is_valid] never raises: for every argument tuple
    it returns a boolean.  It returns [False] for every failure to open
    the file, whatever is raised, and for every file whose root has no
    member named ['denovo'] or ['denovo-forward']; it returns [True]
    exactly when the file opens and its root has a member, of any kind,
    under one of the two names. *)
Theorem C1_is_valid_never_raises args :
  (∃ b, _is_valid h5py_File args = Ok b)
  ∧ (∀ name e, args !! 0 = Some name → h5py_File name = Raise e →
       _is_valid h5py_File args = Ok false)
  ∧ (∀ name fileh, args !! 0 = Some name → h5py_File name = Ok fileh →
       root fileh !! "denovo" = None →
       root fileh !! "denovo-forward" = None →
       _is_valid h5py_File args = Ok false)
  ∧ (_is_valid h5py_File args = Ok true ↔
       ∃ name fileh, args !! 0 = Some name ∧ h5py_File name = Ok fileh
         ∧ (is_Some (root fileh !! "denovo")
            ∨ is_Some (root fileh !! "denovo-forward"))).
Proof.
  split; [apply try_except_returns|].
  split; [apply is_valid_not_opened|]. split.
  - intros name fileh Ha Hf Hd Hdf.
    by rewrite (is_valid_opened _ _ _ Ha Hf), Hd, Hdf.
  - split.
    + intros Hv. destruct (args !! 0) as [name|] eqn:Ha.
      2: { rewrite is_valid_no_argument in Hv by done. discriminate. }
      destruct (h5py_File name) as [fileh|e] eqn:Hf.
      2: { rewrite (is_valid_not_opened _ _ _ Ha Hf) in Hv. discriminate. }
      rewrite (is_valid_opened _ _ _ Ha Hf) in Hv. injection Hv as Hv.
      exists name, fileh. repeat split; [done|].
      apply orb_prop in Hv as [Hv|Hv]; apply bool_decide_eq_true in Hv; auto.
    + intros (name & fileh & Ha & Hf & Hm).
      rewrite (is_valid_opened _ _ _ Ha Hf). f_equal.
      destruct Hm; [rewrite bool_decide_eq_true_2 by done; done|].
      rewrite (bool_decide_eq_true_2 (is_Some (_ !! "denovo-forward")))
        by done.
      apply orb_true_r.
Qed.
End is_valid.

Lemma C1_is_valid_never_raises_witness :
  Samples.disk "missing.h5" = Raise (OSError "No such file or directory")
  ∧ DenovoDataset._is_valid Samples.disk ["missing.h5"] = Ok false.
Proof.
  assert (Samples.disk "missing.h5"
          = Raise (OSError "No such file or directory")) as Hf
    by (vm_compute; reflexivity).
  split; [exact Hf|].
  destruct (C1_is_valid_never_raises Samples.disk ["missing.h5"])
    as (_ & Hfail & _).
  exact (Hfail "missing.h5" _ eq_refl Hf).
Defined.

(** The claim as written fails on a file whose root holds a dataset under
    the marker name: no root member is a group, and the validator returns
    [True]. *)
Lemma C1_marker_need_not_be_a_group :
  Samples.disk "marker.h5" = Ok Samples.marker_dataset
  ∧ (∀ name n, H5.root Samples.marker_dataset !! name = Some n →
       H5.is_group n = false)
  ∧ DenovoDataset._is_valid Samples.disk ["marker.h5"] = Ok true.
Proof.
  split; [by vm_compute|]. split; [|by vm_compute].
  intros name n. unfold Samples.marker_dataset. simpl.
  intros [_ <-]%lookup_singleton_Some. done.
Qed.

(** * The parameter loader *)

Section load_parameters.
Import Np H5 DenovoDataset.
Implicit Types (its : list (string * node)) (key : string)
  (parameters loaded : gmap string value) (members : gmap string node).


(** A key that is set aside is never written. *)
Lemma load_stored_elsewhere its parameters key :
  stored_elsewhere key →
  foldl load_item parameters its !! key = parameters !! key.
Proof.
  intros Hk. revert parameters.
  induction its as [|[key' val] its IH]; intros parameters; [done|].
  simpl. rewrite IH. destruct val as [v| |]; try done.
  destruct (stored_elsewhere key') eqn:Hk'; [done|].
  apply lookup_insert_ne. intros ->. by rewrite Hk' in Hk.
Qed.

(** Nor is a key under which no dataset is listed. *)
Lemma load_not_listed its parameters key :
  (∀ v, (key, Dataset v) ∉ its) →
  foldl load_item parameters its !! key = parameters !! key.
Proof.
  revert parameters.
  induction its as [|[key' val] its IH]; intros parameters Hno; [done|].
  simpl. rewrite IH by (intros v Hin; apply (Hno v); by right).
  destruct val as [v| |]; try done.
  destruct (stored_elsewhere key'); [done|].
  apply lookup_insert_ne. intros ->. apply (Hno v). by left.
Qed.

(** A dataset listed under a key that is not set aside is written. *)
Lemma load_listed its parameters key v :
  NoDup its.*1 → (key, Dataset v) ∈ its → ¬ stored_elsewhere key →
  foldl load_item parameters its !! key = Some v.
Proof.
  intros Hnd Hin Hk. revert parameters Hnd Hin.
  induction its as [|[key' val] its IH]; intros parameters Hnd Hin;
    [by apply elem_of_nil in Hin|].
  rewrite fmap_cons in Hnd. apply list.NoDup_cons in Hnd as [Hhd Hnd].
  apply elem_of_cons in Hin as [[= <- <-]|Hin]; [|by apply IH].
  simpl. rewrite load_not_listed.
  - destruct (stored_elsewhere key); [done|]. apply lookup_insert_eq.
  - intros v' Hin. apply Hhd, list_elem_of_fmap. by exists (key, Dataset v').
Qed.


End load_parameters.

(** * The domain edges *)

Section load_domain_edge.
Import Np H5 DenovoDataset Spec.
Implicit Types (parameters : gmap string value) (xs : list Z)
  (fs : list float64) (v : value).

(** *** Integer arrays *)

Lemma foldl_min_spec xs x :
  let a := foldl Z.min x xs in
  (a = x ∨ a ∈ xs) ∧ (a ≤ x)%Z ∧ ∀ y, y ∈ xs → (a ≤ y)%Z.
Proof.
  revert x. induction xs as [|y xs IH]; intros x; simpl.
  - split; [by left|]. split; [lia|]. by intros y ?%elem_of_nil.
  - destruct (IH (Z.min x y)) as (Hin & Hle & Hall).
    split; [|split].
    + destruct Hin as [->|Hin]; [|by right; right].
      destruct (Z.min_spec x y) as [[_ ->]|[_ ->]]; [by left|].
      right. by left.
    + lia.
    + intros z [->|Hz]%elem_of_cons; [lia|by apply Hall].
Qed.

Lemma foldl_max_spec xs x :
  let a := foldl Z.max x xs in
  (a = x ∨ a ∈ xs) ∧ (x ≤ a)%Z ∧ ∀ y, y ∈ xs → (y ≤ a)%Z.
Proof.
  revert x. induction xs as [|y xs IH]; intros x; simpl.
  - split; [by left|]. split; [lia|]. by intros y ?%elem_of_nil.
  - destruct (IH (Z.max x y)) as (Hin & Hle & Hall).
    split; [|split].
    + destruct Hin as [->|Hin]; [|by right; right].
      destruct (Z.max_spec x y) as [[_ ->]|[_ ->]]; [right; by left|].
      by left.
    + lia.
    + intros z [->|Hz]%elem_of_cons; [lia|by apply Hall].
Qed.

(** *** Float arrays *)

Lemma foldl_fmin_NaN fs : foldl fmin NaN fs = NaN.
Proof. induction fs; simpl; auto. Qed.

Lemma foldl_fmax_NaN fs : foldl fmax NaN fs = NaN.
Proof. induction fs; simpl; auto. Qed.

(** One NaN among the components and the reduction is NaN. *)
Lemma foldl_fmin_holds fs f : NaN ∈ f :: fs → foldl fmin f fs = NaN.
Proof.
  revert f. induction fs as [|g fs IH]; intros f Hin; simpl.
  - by apply list_elem_of_singleton in Hin as <-.
  - destruct f as [p|]; [|apply foldl_fmin_NaN].
    destruct g as [q|]; [|apply foldl_fmin_NaN].
    apply IH. apply elem_of_cons in Hin as [?|Hin]; [done|].
    apply elem_of_cons in Hin as [?|Hin]; [done|]. by right.
Qed.

Lemma foldl_fmax_holds fs f : NaN ∈ f :: fs → foldl fmax f fs = NaN.
Proof.
  revert f. induction fs as [|g fs IH]; intros f Hin; simpl.
  - by apply list_elem_of_singleton in Hin as <-.
  - destruct f as [p|]; [|apply foldl_fmax_NaN].
    destruct g as [q|]; [|apply foldl_fmax_NaN].
    apply IH. apply elem_of_cons in Hin as [?|Hin]; [done|].
    apply elem_of_cons in Hin as [?|Hin]; [done|]. by right.
Qed.

(** Without a NaN the reduction is one of the components, below (above)
    every one of them. *)
Lemma foldl_fmin_finite fs p :
  NaN ∉ fs →
  ∃ m, foldl fmin (Finite p) fs = Finite m
       ∧ (Finite m = Finite p ∨ Finite m ∈ fs)
       ∧ (m <= p)%Q ∧ ∀ q, Finite q ∈ fs → (m <= q)%Q.
Proof.
  revert p. induction fs as [|[q|] fs IH]; intros p Hn; simpl.
  - exists p. split; [done|]. split; [by left|].
    split; [apply Qle_refl|]. by intros q ?%elem_of_nil.
  - assert (NaN ∉ fs) as Hn' by (intros ?; apply Hn; by right).
    destruct (Qle_bool p q) eqn:Hpq.
    + apply Qle_bool_iff in Hpq.
      destruct (IH p Hn') as (m & -> & Hin & Hle & Hall).
      exists m. split; [done|]. split; [|split; [done|]].
      * destruct Hin as [?|?]; [by left|by right; right].
      * intros r [[= ->]|Hr]%elem_of_cons; [|by apply Hall].
        by eapply Qle_trans.
    + assert (q <= p)%Q as Hqp.
      { apply Qlt_le_weak, Qnot_le_lt. intros Hle.
        apply Qle_bool_iff in Hle. congruence. }
      destruct (IH q Hn') as (m & -> & Hin & Hle & Hall).
      exists m. split; [done|]. split; [|split].
      * right. destruct Hin as [->|?]; [by left|by right].
      * by eapply Qle_trans.
      * intros r [[= ->]|Hr]%elem_of_cons; [done|by apply Hall].
  - destruct Hn. by left.
Qed.

Lemma foldl_fmax_finite fs p :
  NaN ∉ fs →
  ∃ m, foldl fmax (Finite p) fs = Finite m
       ∧ (Finite m = Finite p ∨ Finite m ∈ fs)
       ∧ (p <= m)%Q ∧ ∀ q, Finite q ∈ fs → (q <= m)%Q.
Proof.
  revert p. induction fs as [|[q|] fs IH]; intros p Hn; simpl.
  - exists p. split; [done|]. split; [by left|].
    split; [apply Qle_refl|]. by intros q ?%elem_of_nil.
  - assert (NaN ∉ fs) as Hn' by (intros ?; apply Hn; by right).
    destruct (Qle_bool p q) eqn:Hpq.
    + apply Qle_bool_iff in Hpq.
      destruct (IH q Hn') as (m & -> & Hin & Hle & Hall).
      exists m. split; [done|]. split; [|split].
      * right. destruct Hin as [->|?]; [by left|by right].
      * by eapply Qle_trans.
      * intros r [[= ->]|Hr]%elem_of_cons; [done|by apply Hall].
    + assert (q <= p)%Q as Hqp.
      { apply Qlt_le_weak, Qnot_le_lt. intros Hle.
        apply Qle_bool_iff in Hle. congruence. }
      destruct (IH p Hn') as (m & -> & Hin & Hle & Hall).
      exists m. split; [done|]. split; [|split; [done|]].
      * destruct Hin as [?|?]; [by left|by right; right].
      * intros r [[= ->]|Hr]%elem_of_cons; [|by apply Hall].
        by eapply Qle_trans.
  - destruct Hn. by left.
Qed.

(** *** [min] and [max] of a value *)

Lemma holds_nan_VScalar x : ¬ holds_nan (VScalar x).
Proof. unfold holds_nan. simpl. by intros ?%list_elem_of_singleton. Qed.

Lemma holds_nan_VArray xs : ¬ holds_nan (VArray xs).
Proof.
  unfold holds_nan. simpl. by intros (x & ? & _)%list_elem_of_fmap.
Qed.

Lemma holds_nan_VFloats fs : holds_nan (VFloats fs) ↔ NaN ∈ fs.
Proof.
  unfold holds_nan. simpl. rewrite list_elem_of_fmap. split.
  - by intros (f & [= <-] & ?).
  - eauto.
Qed.

(** [min] and [max] raise on the array without components, and on
    nothing else. *)
Lemma min_Ok v : no_elements v = false → ∃ a, min v = Ok a.
Proof. destruct v as [x|[|x xs]|[|f fs]]; simpl; by eauto. Qed.


Lemma min_Raise v e : min v = Raise e → e = ValueError ∧ no_elements v = true.
Proof. destruct v as [x|[|x xs]|[|f fs]]; simpl; by intros [= <-]. Qed.

Lemma min_empty v : no_elements v = true → min v = Raise ValueError.
Proof. by destruct v as [x|[|x xs]|[|f fs]]. Qed.

Lemma max_empty v : no_elements v = true → max v = Raise ValueError.
Proof. by destruct v as [x|[|x xs]|[|f fs]]. Qed.

(** What [min] returns is the minimum: NaN if there is one, the least
    component if not. *)
Lemma min_minimum v a : min v = Ok a → minimum a v.
Proof.
  destruct v as [x|[|x xs]|[|f fs]]; simpl; try discriminate; intros [= <-].
  - split; [by intros ?%holds_nan_VScalar|]. intros _. split; simpl.
    + by left.
    + intros y ->%list_elem_of_singleton. simpl. lia.
  - split; [by intros ?%holds_nan_VArray|]. intros _.
    destruct (foldl_min_spec xs x) as (Hin & Hle & Hall). split; unfold elements.
    + apply (list_elem_of_fmap_2 Integer).
      destruct Hin as [->|Hin]; [by left|by right].
    + intros y (z & -> & [->|Hz]%elem_of_cons)%list_elem_of_fmap; simpl;
        auto.
  - split.
    + intros Hn%holds_nan_VFloats. by rewrite foldl_fmin_holds.
    + intros Hn. rewrite holds_nan_VFloats in Hn.
      destruct f as [p|]; [|destruct Hn; by left].
      destruct (foldl_fmin_finite fs p) as (m & -> & Hin & Hle & Hall).
      { intros ?. apply Hn. by right. }
      split; unfold elements.
      * apply (list_elem_of_fmap_2 Floating).
        destruct Hin as [->|Hin]; [by left|by right].
      * intros y (g & -> & Hg)%list_elem_of_fmap.
        destruct g as [q|]; [|by destruct Hn].
        apply elem_of_cons in Hg as [[= ->]|Hg]; simpl; auto.
Qed.

Lemma max_maximum v a : max v = Ok a → maximum a v.
Proof.
  destruct v as [x|[|x xs]|[|f fs]]; simpl; try discriminate; intros [= <-].
  - split; [by intros ?%holds_nan_VScalar|]. intros _. split; simpl.
    + by left.
    + intros y ->%list_elem_of_singleton. simpl. lia.
  - split; [by intros ?%holds_nan_VArray|]. intros _.
    destruct (foldl_max_spec xs x) as (Hin & Hle & Hall). split; unfold elements.
    + apply (list_elem_of_fmap_2 Integer).
      destruct Hin as [->|Hin]; [by left|by right].
    + intros y (z & -> & [->|Hz]%elem_of_cons)%list_elem_of_fmap; simpl;
        auto.
  - split.
    + intros Hn%holds_nan_VFloats. by rewrite foldl_fmax_holds.
    + intros Hn. rewrite holds_nan_VFloats in Hn.
      destruct f as [p|]; [|destruct Hn; by left].
      destruct (foldl_fmax_finite fs p) as (m & -> & Hin & Hle & Hall).
      { intros ?. apply Hn. by right. }
      split; unfold elements.
      * apply (list_elem_of_fmap_2 Floating).
        destruct Hin as [->|Hin]; [by left|by right].
      * intros y (g & -> & Hg)%list_elem_of_fmap.
        destruct g as [q|]; [|by destruct Hn].
        apply elem_of_cons in Hg as [[= ->]|Hg]; simpl; auto.
Qed.









(** C6.  When the coordinate arrays are absent from the parameter
    mapping, [_load_domain_edge] returns two empty sequences. *)
Theorem C6_no_coordinates_empty_edges parameters :
  parameters !! "mesh_x" = None →
  parameters !! "mesh_y" = None →
  parameters !! "mesh_z" = None →
  _load_domain_edge parameters = Ok ([], []).
Proof. intros Hx _ _. unfold _load_domain_edge. by rewrite Hx. Qed.

Lemma C6_no_coordinates_empty_edges_witness :
  _load_domain_edge ∅ = Ok ([], []).
Proof.
  apply (C6_no_coordinates_empty_edges ∅); apply lookup_empty.
Defined.

(** Only ['mesh_x'] is looked at: the other two may be there. *)
Lemma load_domain_edge_no_mesh_x parameters :
  parameters !! "mesh_x" = None → _load_domain_edge parameters = Ok ([], []).
Proof. intros Hx. unfold _load_domain_edge. by rewrite Hx. Qed.

(** C10, as amended.  When ['mesh_x'] is in the parameter mapping and
    ['mesh_y'] or ['mesh_z'] is not, [_load_domain_edge] never returns
    empty edges, nor anything else: it raises.  It raises [KeyError]
    when ['mesh_x'] is not an empty array and, if ['mesh_y'] is
    present, neither is ['mesh_y']; it raises [ValueError] otherwise,
    that is when ['mesh_x'] is an empty array or ['mesh_y'] is present
    and an empty array, since [min] is taken of each array before the
    next key is looked up. *)
Theorem C10_partial_coordinates_raise parameters vx :
  parameters !! "mesh_x" = Some vx →
  parameters !! "mesh_y" = None ∨ parameters !! "mesh_z" = None →
  (no_elements vx = false →
   (∀ vy, parameters !! "mesh_y" = Some vy → no_elements vy = false) →
   _load_domain_edge parameters = Raise KeyError)
  ∧ (no_elements vx = true
     ∨ (∃ vy, parameters !! "mesh_y" = Some vy ∧ no_elements vy = true) →
     _load_domain_edge parameters = Raise ValueError).
Proof.
  intros Hx Hyz. unfold _load_domain_edge, dict_getitem. rewrite Hx. simpl.
  destruct (no_elements vx) eqn:Hvx.
  { rewrite (min_empty vx) by done. split; [discriminate|done]. }
  destruct (min_Ok vx Hvx) as [lx ->]. simpl.
  destruct (parameters !! "mesh_y") as [vy|] eqn:Hy; simpl.
  2: { split; [done|]. intros [?|(vy & ? & _)]; discriminate. }
  destruct (no_elements vy) eqn:Hvy.
  { rewrite (min_empty vy) by done. split; [|done].
    intros _ Hvy'. specialize (Hvy' vy eq_refl). congruence. }
  destruct (min_Ok vy Hvy) as [ly ->]. simpl.
  destruct Hyz as [?|Hz]; [done|]. rewrite Hz. simpl.
  split; [done|]. intros [?|(vy' & [= <-] & ?)]; congruence.
Qed.

Lemma C10_partial_coordinates_raise_witness :
  let parameters : gmap string value :=
    {[ "mesh_x" := VFloats [Finite 0; Finite 1; Finite 2];
       "mesh_y" := VFloats [Finite 0; Finite 1] ]} in
  parameters !! "mesh_x" = Some (VFloats [Finite 0; Finite 1; Finite 2])
  ∧ parameters !! "mesh_z" = None
  ∧ _load_domain_edge parameters = Raise KeyError.
Proof.
  intros parameters.
  assert (parameters !! "mesh_x"
          = Some (VFloats [Finite 0; Finite 1; Finite 2])) as Hx
    by (vm_compute; reflexivity).
  assert (parameters !! "mesh_z" = None) as Hz by (vm_compute; reflexivity).
  split; [exact Hx|]. split; [exact Hz|].
  destruct (C10_partial_coordinates_raise parameters _ Hx (or_intror Hz))
    as [Hkey _].
  apply Hkey; [reflexivity|].
  intros vy Hy. vm_compute in Hy. injection Hy as <-. reflexivity.
Defined.

(** The claim as written fails when an array met before the missing key
    is empty: ['mesh_x'] is there, ['mesh_y'] and ['mesh_z'] are not, and
    what is raised is the [ValueError] of [min]. *)
Lemma C10_empty_array_raises_first :
  let parameters : gmap string value := {[ "mesh_x" := VArray [] ]} in
  parameters !! "mesh_x" = Some (VArray [])
  ∧ parameters !! "mesh_y" = None
  ∧ parameters !! "mesh_z" = None
  ∧ _load_domain_edge parameters = Raise ValueError.
Proof. repeat split; by vm_compute. Qed.
End load_domain_edge.

(** * Parsing the parameter file *)

Section parse_parameter_file.
Import Np H5 DenovoIndex DenovoDataset.

(** [_load_energy_fluid_types] indexes ['mesh_g'] without looking for it
    first. *)
Lemma load_energy_fluid_types_absent parameters fluid_types :
  parameters !! "mesh_g" = None →
  _load_energy_fluid_types parameters fluid_types = Raise KeyError.
Proof.
  intros Hg. unfold _load_energy_fluid_types, dict_getitem. by rewrite Hg.
Qed.

(** With an empty group list it adds nothing. *)
Lemma load_energy_fluid_types_empty parameters fluid_types :
  parameters !! "mesh_g" = Some (VArray []) →
  _load_energy_fluid_types parameters fluid_types = Ok fluid_types.
Proof.
  intros Hg. unfold _load_energy_fluid_types, dict_getitem. by rewrite Hg.
Qed.

(** [_detect_output_fields] does look first: an absent ['mesh_g'] and an
    empty one take the same branch. *)
Lemma detect_absent_as_empty parameters fhandle :
  parameters !! "mesh_g" = None →
  _detect_output_fields parameters fhandle =
  _detect_output_fields (<["mesh_g" := VArray []]> parameters) fhandle.
Proof.
  intros Hg. rewrite !detect_fallback; [done| |by left].
  right. left. apply lookup_insert_eq.
Qed.

(** Whenever the file opens and the loader leaves no ['mesh_g'] in the
    parameter mapping, parsing does not complete. *)
Lemma parse_without_mesh_g h5py_File self handle :
  h5py_File (parameter_filename self) = Ok handle →
  (∀ loaded, _load_parameters handle (parameters self) = Ok loaded →
             loaded !! "mesh_g" = None) →
  ∃ e, _parse_parameter_file h5py_File self = Raise e.
Proof.
  intros Hf Hg. unfold _parse_parameter_file. rewrite Hf. simpl.
  destruct (_load_parameters handle (parameters self)) as [loaded|e] eqn:Hl;
    simpl; [|by eauto].
  destruct (_load_domain_edge loaded) as [edges|e]; simpl; [|by eauto].
  rewrite load_energy_fluid_types_absent by auto. simpl. eauto.
Qed.

(** C4: the code does not do what the claim says.  On the sample file
    without ['mesh_g'] (coordinates, flags and a populated ['block'] all
    in place) the loader returns a mapping without ['mesh_g'], the domain
    edges are computed, and [_parse_parameter_file] then raises
    [KeyError]; [_detect_output_fields], on the same mapping and file,
    returns the fallback field list. *)
Theorem C4_parse_raises_without_mesh_g :
  (∃ loaded, _load_parameters Samples.plain ∅ = Ok loaded
     ∧ loaded !! "mesh_g" = None
     ∧ _load_domain_edge loaded =
         Ok ([Integer 0; Integer 0; Integer 0],
             [Integer 2; Integer 1; Integer 5])
     ∧ _load_energy_fluid_types loaded ["gas"; "deposit"; "index"; "denovo"]
       = Raise KeyError
     ∧ _detect_output_fields loaded Samples.plain = Ok [("denovo", "flux")])
  ∧ _parse_parameter_file Samples.disk (Samples.fresh "plain.out.h5")
    = Raise KeyError.
Proof.
  split; [|by vm_compute].
  eexists. split; [reflexivity|]. repeat split; by vm_compute.
Qed.
End parse_parameter_file.

(** * The group labels *)

Section labels.
Import Stdlib.Strings.Ascii Readback DenovoIndex.
Implicit Types (n m : Z) (s : string) (k : nat).

Lemma zeros_cons k :
  String.concat "" (replicate (S k) "0")
  = String "0"%char (String.concat "" (replicate k "0")).
Proof. by destruct k. Qed.

Lemma zfill_length k s :
  String.length (zfill k s) = (k - String.length s + String.length s)%nat.
Proof.
  unfold zfill. generalize (k - String.length s)%nat as j.
  induction j as [|j IH]; [done|].
  rewrite zeros_cons. simpl. by rewrite IH.
Qed.

Lemma nat_of_digits_zfill k s : nat_of_digits (zfill k s) = nat_of_digits s.
Proof.
  unfold zfill. generalize (k - String.length s)%nat as j.
  induction j as [|j IH]; [done|].
  rewrite zeros_cons. unfold nat_of_digits in *. simpl.
  destruct (NilEmpty.uint_of_string _) as [d|];
    destruct (NilEmpty.uint_of_string s) as [d'|]; simpl in *; congruence.
Qed.

Lemma nat_of_digits_minus s : nat_of_digits (String "-"%char s) = None.
Proof.
  unfold nat_of_digits. simpl. by destruct (NilEmpty.uint_of_string s).
Qed.

Lemma to_uint_not_Nil (x : N) : N.to_uint x ≠ Decimal.Nil.
Proof.
  destruct x as [|p]; [done|]. simpl.
  intros H. pose proof (DecimalPos.Unsigned.of_to p) as Hp.
  rewrite H in Hp. discriminate.
Qed.

Lemma nat_of_digits_to_uint (x : N) :
  nat_of_digits (NilZero.string_of_uint (N.to_uint x)) = Some x.
Proof.
  unfold nat_of_digits.
  assert (NilZero.string_of_uint (N.to_uint x)
          = NilEmpty.string_of_uint (N.to_uint x)) as ->.
  { pose proof (to_uint_not_Nil x). by destruct (N.to_uint x). }
  rewrite NilEmpty.usu. simpl. by rewrite DecimalN.Unsigned.of_to.
Qed.

(** What [nat_of_digits] reads in the output of [%03i]. *)
Lemma nat_of_digits_pct_03i n :
  nat_of_digits (pct_03i n) = if (n <? 0)%Z then None else Some (Z.abs_N n).
Proof.
  unfold pct_03i. destruct (n <? 0)%Z.
  - apply nat_of_digits_minus.
  - by rewrite nat_of_digits_zfill, nat_of_digits_to_uint.
Qed.

Lemma pct_03i_negative n :
  (n < 0)%Z →
  pct_03i n
  = String "-"%char
      (zfill 2 (NilZero.string_of_uint (N.to_uint (Z.abs_N n)))).
Proof.
  intros Hn. unfold pct_03i. by rewrite (proj2 (Z.ltb_lt n 0) Hn).
Qed.

Lemma int_of_string_minus s :
  int_of_string (String "-"%char s) = (λ x, - Z.of_N x)%Z <$> nat_of_digits s.
Proof. reflexivity. Qed.

(** [int('%03i' % n) == n]. *)
Lemma int_of_string_pct_03i n : int_of_string (pct_03i n) = Some n.
Proof.
  destruct (n <? 0)%Z eqn:Hn.
  - apply Z.ltb_lt in Hn. rewrite pct_03i_negative, int_of_string_minus by done.
    rewrite nat_of_digits_zfill, nat_of_digits_to_uint. simpl.
    f_equal. lia.
  - assert (int_of_string (pct_03i n) = Z.of_N <$> nat_of_digits (pct_03i n))
      as ->.
    { pose proof (nat_of_digits_pct_03i n) as H. rewrite Hn in H.
      destruct (pct_03i n) as [|c s]; [done|].
      destruct (decide (c = "-"%char)) as [->|Hc].
      - by rewrite nat_of_digits_minus in H.
      - unfold int_of_string. by repeat case_match. }
    rewrite nat_of_digits_pct_03i, Hn. simpl. f_equal.
    apply Z.ltb_ge in Hn. lia.
Qed.

Lemma append_length s1 s2 :
  String.length (s1 +:+ s2) = (String.length s1 + String.length s2)%nat.
Proof. induction s1 as [|c s1 IH]; [done|]. simpl. by rewrite <- IH. Qed.

Lemma append_inj_r s s1 s2 : s +:+ s1 = s +:+ s2 → s1 = s2.
Proof. induction s as [|c s IH]; [done|]. intros [= H]. by apply IH. Qed.

(** The decimal digits of the numbers below 1000 and below 100, counted
    by running through them. *)
Lemma digits_below_1000 (x : N) :
  (x < 1000)%N →
  (String.length (NilZero.string_of_uint (N.to_uint x)) ≤ 3)%nat.
Proof.
  intros Hx.
  assert (forallb (λ k, String.length
                          (NilZero.string_of_uint (N.to_uint (N.of_nat k)))
                        <=? 3)%nat (seq 0 1000) = true) as Hall
    by (vm_compute; reflexivity).
  rewrite forallb_forall in Hall.
  specialize (Hall (N.to_nat x)). rewrite N2Nat.id in Hall.
  apply Nat.leb_le, Hall, in_seq. lia.
Qed.

Lemma digits_below_100 (x : N) :
  (x < 100)%N →
  (String.length (NilZero.string_of_uint (N.to_uint x)) ≤ 2)%nat.
Proof.
  intros Hx.
  assert (forallb (λ k, String.length
                          (NilZero.string_of_uint (N.to_uint (N.of_nat k)))
                        <=? 2)%nat (seq 0 100) = true) as Hall
    by (vm_compute; reflexivity).
  rewrite forallb_forall in Hall.
  specialize (Hall (N.to_nat x)). rewrite N2Nat.id in Hall.
  apply Nat.leb_le, Hall, in_seq. lia.
Qed.

Lemma pct_03i_length n :
  String.length (pct_03i n) =
    let digits := String.length (NilZero.string_of_uint (N.to_uint (Z.abs_N n)))
    in if (n <? 0)%Z then S (2 - digits + digits) else (3 - digits + digits)%nat.
Proof.
  destruct (n <? 0)%Z eqn:Hn.
  - apply Z.ltb_lt in Hn. rewrite pct_03i_negative by done. simpl.
    by rewrite zfill_length.
  - unfold pct_03i. rewrite Hn. by rewrite zfill_length.
Qed.

(** X1.  The label of an energy group with an integer group number is
    ["egroup_"] followed by a string that reads back, as a decimal
    integer, to the group number; so two different integer group numbers
    never get the same label, whatever their size or sign: [%03i] pads
    and never truncates. *)
Theorem X1_group_label_reads_back :
  (∀ g, ∃ digits, egroup g = "egroup_" +:+ digits
                  ∧ int_of_string digits = Some g)
  ∧ (∀ g1 g2, g1 ≠ g2 → egroup g1 ≠ egroup g2).
Proof.
  split.
  - intros g. exists (pct_03i g). split; [done|]. apply int_of_string_pct_03i.
  - intros g1 g2 Hne Heq. apply append_inj_r in Heq.
    pose proof (int_of_string_pct_03i g1) as H1. rewrite Heq in H1.
    rewrite int_of_string_pct_03i in H1. congruence.
Qed.

(** X2.  The number part of the label of an integer group number has at
    least three characters, and exactly three for the group numbers from
    -99 to 999: the label of such a group is ten characters long. *)
Theorem X2_group_label_width g :
  (10 ≤ String.length (egroup g))%nat
  ∧ ((-99 ≤ g ≤ 999)%Z → String.length (egroup g) = 10%nat).
Proof.
  unfold egroup. rewrite append_length, pct_03i_length. simpl.
  destruct (g <? 0)%Z eqn:Hg.
  - apply Z.ltb_lt in Hg. split; [lia|]. intros Hr.
    pose proof (digits_below_100 (Z.abs_N g)). lia.
  - apply Z.ltb_ge in Hg. split; [lia|]. intros Hr.
    pose proof (digits_below_1000 (Z.abs_N g)). lia.
Qed.

Lemma X2_group_label_width_witness :
  (-99 ≤ 12 ≤ 999)%Z ∧ String.length (egroup 12) = 10%nat.
Proof.
  split; [lia|]. apply (X2_group_label_width 12). lia.
Defined.
End labels.


(** * Fluid types and field types *)

Section fluid_types.
Import Np H5 DenovoIndex DenovoDataset Spec.
Implicit Types (parameters : gmap string value) (fhandle : file)
  (fluid_types : list string) (groups : list Z) (fl : list field).

Lemma for_group_numbers_Ok (numbers : list number) groups fluid_types :
  Forall2 (λ g z, group_number g = Some z) numbers groups →
  for_group_numbers numbers fluid_types
  = Ok (fluid_types ++ (egroup <$> groups)).
Proof.
  intros Hzs. revert fluid_types.
  induction Hzs as [|g z numbers groups Hz Hzs IH]; intros fluid_types.
  - simpl. by rewrite app_nil_r.
  - simpl. destruct g as [z'|[q|]]; simplify_eq/=;
      rewrite IH; by rewrite <- (assoc_L (++)).
Qed.

Lemma for_group_numbers_NaN (fs : list float64) fluid_types :
  NaN ∈ fs →
  for_group_numbers (Floating <$> fs) fluid_types = Raise ValueError.
Proof.
  revert fluid_types. induction fs as [|[q|] fs IH]; intros fluid_types Hin.
  - by apply elem_of_nil in Hin.
  - apply elem_of_cons in Hin as [?|Hin]; [done|]. csimpl. by apply IH.
  - done.
Qed.

Lemma load_energy_fluid_types_shape parameters fluid_types :
  _load_energy_fluid_types parameters fluid_types =
    match parameters !! "mesh_g" with
    | None => Raise KeyError
    | Some (VScalar _) => Raise TypeError
    | Some (VArray groups) => Ok (fluid_types ++ (egroup <$> groups))
    | Some (VFloats fs) =>
        if bool_decide (NaN ∈ fs) then Raise ValueError
        else Ok (fluid_types ++ (egroup <$> omap float_group fs))
    end.
Proof.
  unfold _load_energy_fluid_types, dict_getitem.
  destruct (parameters !! "mesh_g") as [[x|[|g groups]|[|f fs]]|]; try done.
  - simpl. by rewrite app_nil_r.
  - change (for_group_numbers (Integer <$> g :: groups) fluid_types
            = Ok (fluid_types ++ (egroup <$> g :: groups))).
    apply for_group_numbers_Ok, group_numbers_VArray.
  - simpl. by rewrite app_nil_r.
  - change (for_group_numbers (Floating <$> f :: fs) fluid_types
            = if bool_decide (NaN ∈ f :: fs) then Raise ValueError
              else Ok (fluid_types ++ (egroup <$> omap float_group (f :: fs)))).
    case_bool_decide.
    + by apply for_group_numbers_NaN.
    + by apply for_group_numbers_Ok, group_numbers_VFloats.
Qed.

(** X3.  [_load_energy_fluid_types] by the shape of ['mesh_g']: missing,
    it raises [KeyError]; a scalar, [TypeError] (from [len]); an integer
    array, it returns the fluid types it was given, in their order,
    followed by one label per group in the order of the array, and
    nothing else (for the empty array, the fluid types unchanged); a
    float array whose components are finite or NaN, the same with every
    component cut off to an integer if none is NaN, and [ValueError]
    (from [%i]) if one is. *)
Theorem X3_energy_fluid_types_by_shape parameters fluid_types :
  _load_energy_fluid_types parameters fluid_types =
    match parameters !! "mesh_g" with
    | None => Raise KeyError
    | Some (VScalar _) => Raise TypeError
    | Some (VArray groups) => Ok (fluid_types ++ (egroup <$> groups))
    | Some (VFloats fs) =>
        if bool_decide (NaN ∈ fs) then Raise ValueError
        else Ok (fluid_types ++ (egroup <$> omap float_group fs))
    end.
Proof. apply load_energy_fluid_types_shape. Qed.

Lemma elem_of_field_types parameters ft :
  ft ∈ field_types parameters →
  ft = "denovo"
  ∨ (∃ groups, parameters !! "mesh_g" = Some (VArray groups)
               ∧ ft ∈ egroup <$> groups)
  ∨ (∃ fs, parameters !! "mesh_g" = Some (VFloats fs)
           ∧ ft ∈ egroup <$> omap float_group fs).
Proof.
  unfold field_types.
  destruct (parameters !! "mesh_g") as [[x|[|g groups]|[|f fs]]|];
    try (intros ->%list_elem_of_singleton; by left).
  - intros Hin. right. left. by exists (g :: groups).
  - intros Hin. right. right. by exists (f :: fs).
Qed.

(** X4.  The two halves agree.  When parsing has registered the fluid
    types and field detection has listed the fields, from the same
    parameter mapping, every field type in the field list is a registered
    fluid type, provided ['denovo'] was one before (the constructor adds
    it). *)
Theorem X4_field_types_are_fluid_types parameters fhandle fluid_types
    fluid_types' fl :
  "denovo" ∈ fluid_types →
  _load_energy_fluid_types parameters fluid_types = Ok fluid_types' →
  _detect_output_fields parameters fhandle = Ok fl →
  ∀ ft name, (ft, name) ∈ fl → ft ∈ fluid_types'.
Proof.
  intros Hd Hl (members & _ & _ & _ & _ & ->)%detect_Ok_inv ft name
    (Hft & _)%elem_of_expected_fields.
  rewrite load_energy_fluid_types_shape in Hl.
  apply elem_of_field_types in Hft
    as [->|[(groups & Hg & Hft)|(fs & Hg & Hft)]].
  - destruct (parameters !! "mesh_g") as [[x|groups|fs]|]; try done.
    + injection Hl as <-. apply elem_of_app. by left.
    + case_bool_decide; [done|].
      injection Hl as <-. apply elem_of_app. by left.
  - rewrite Hg in Hl. injection Hl as <-. apply elem_of_app. by right.
  - rewrite Hg in Hl. case_bool_decide; [done|].
    injection Hl as <-. apply elem_of_app. by right.
Qed.
End fluid_types.

Lemma X4_field_types_are_fluid_types_witness :
  let parameters : gmap string Np.value := {[ "mesh_g" := Np.VArray [1; 2]%Z ]} in
  let fluid_types := ["gas"; "deposit"; "index"; "denovo"] in
  let fluid_types' := fluid_types ++ ["egroup_001"; "egroup_002"] in
  let fl := [("egroup_001", "flux"); ("egroup_002", "flux")] in
  "denovo" ∈ fluid_types
  ∧ DenovoDataset._load_energy_fluid_types parameters fluid_types
    = Ok fluid_types'
  ∧ DenovoIndex._detect_output_fields parameters Samples.grouped = Ok fl
  ∧ "egroup_002" ∈ fluid_types'.
Proof.
  intros parameters fluid_types fluid_types' fl.
  assert ("denovo" ∈ fluid_types) as Hd
    by (apply list_elem_of_In; vm_compute; tauto).
  assert (DenovoDataset._load_energy_fluid_types parameters fluid_types
          = Ok fluid_types') as Hl by (vm_compute; reflexivity).
  assert (DenovoIndex._detect_output_fields parameters Samples.grouped = Ok fl)
    as Hf by (vm_compute; reflexivity).
  repeat (split; [assumption|]).
  apply (X4_field_types_are_fluid_types parameters Samples.grouped
           fluid_types fluid_types' fl Hd Hl Hf "egroup_002" "flux").
  apply list_elem_of_In. vm_compute. tauto.
Defined.

(** * The shape of the field list *)

Section field_list_shape.
Import Np H5 DenovoIndex Spec.
Implicit Types (parameters : gmap string value) (fhandle : file)
  (members : gmap string node) (groups : list Z) (names labels : list string)
  (fl : list field).

(** The names that end up in the field list. *)
Lemma kept_names ft members :
  ∃ names,
    kept ft (map_to_list members) = pair ft <$> names
    ∧ NoDup names
    ∧ names `sublist_of` (map_to_list members).*1
    ∧ ∀ name, name ∈ names ↔
        ∃ v, members !! name = Some (Dataset v) ∧ truth v = Ok true
             ∧ name ≠ "block" ∧ name ≠ "angular_mesh".
Proof.
  exists (filter (λ name, ¬ unsupported name) (flagged (map_to_list members))).
  split; [done|].
  assert (filter (λ name, ¬ unsupported name) (flagged (map_to_list members))
          `sublist_of` (map_to_list members).*1) as Hsub.
  { etrans; [apply sublist_filter|]. unfold flagged.
    apply fmap_sublist, sublist_filter. }
  split; [|split; [done|]].
  - eapply sublist_NoDup; [apply (NoDup_fst_map_to_list members) | done].
  - intros name. rewrite list_elem_of_filter, elem_of_flagged_members.
    rewrite unsupported_spec. split.
    + intros (Hu & v & Hv & Ht). exists v. tauto.
    + intros (v & Hv & Ht & Hb & Ha). split; [tauto|eauto].
Qed.

Lemma join_labels_cons ft labels names :
  (mjoin ((λ ft, pair ft <$> names) <$> ft :: labels) : list field)
  = (pair ft <$> names) ++ mjoin ((λ ft, pair ft <$> names) <$> labels).
Proof. reflexivity. Qed.

Lemma join_labels_length labels names :
  length (mjoin ((λ ft, pair ft <$> names) <$> labels) : list field)
  = length labels * length names.
Proof.
  induction labels as [|ft labels IH]; [done|].
  rewrite join_labels_cons, length_app, length_fmap, IH. done.
Qed.

Lemma elem_of_join_labels labels names ft name :
  (ft, name) ∈ (mjoin ((λ ft, pair ft <$> names) <$> labels) : list field)
  ↔ ft ∈ labels ∧ name ∈ names.
Proof.
  rewrite list_elem_of_join. split.
  - intros (l & Hin & (ft' & -> & Hft)%list_elem_of_fmap).
    apply list_elem_of_fmap in Hin as (name' & [= -> ->] & Hn). done.
  - intros [Hft Hn]. exists (pair ft <$> names). split.
    + by apply list_elem_of_fmap_2.
    + apply list_elem_of_fmap. eauto.
Qed.

Lemma join_labels_NoDup labels names :
  NoDup labels → NoDup names →
  NoDup (mjoin ((λ ft, pair ft <$> names) <$> labels) : list field).
Proof.
  intros Hl Hn. induction Hl as [|ft labels Hft Hl IH]; [constructor|].
  rewrite join_labels_cons. apply list.NoDup_app. split; [|split; [|done]].
  - apply (NoDup_fmap_2 _), Hn.
  - intros [ft' name] (name' & [= -> ->] & _)%list_elem_of_fmap
      [Hin _]%elem_of_join_labels. done.
Qed.

Lemma join_labels_NoDup_inv labels names :
  names ≠ [] →
  NoDup (mjoin ((λ ft, pair ft <$> names) <$> labels) : list field) →
  NoDup labels.
Proof.
  intros Hn. induction labels as [|ft labels IH]; [constructor|].
  rewrite join_labels_cons. intros (_ & Hdisj & Hrest)%list.NoDup_app.
  constructor; [|by apply IH].
  intros Hft. destruct names as [|name names]; [done|].
  apply (Hdisj (ft, name)).
  - apply list_elem_of_fmap. exists name. split; [done|]. by left.
  - apply elem_of_join_labels. split; [done|]. by left.
Qed.

Lemma expected_fields_names parameters members :
  ∃ names,
    expected_fields parameters members
    = mjoin ((λ ft, pair ft <$> names) <$> field_types parameters)
    ∧ NoDup names
    ∧ names `sublist_of` (map_to_list members).*1
    ∧ ∀ name, name ∈ names ↔
        ∃ v, members !! name = Some (Dataset v) ∧ truth v = Ok true
             ∧ name ≠ "block" ∧ name ≠ "angular_mesh".
Proof.
  destruct (kept_names "" members) as (names & Hk & Hnd & Hsub & Hin).
  exists names. split; [|done].
  unfold expected_fields. f_equal. apply list_fmap_ext. intros _ ft _.
  unfold kept in *. apply (inj (fmap (pair ""))) in Hk. by rewrite Hk.
Qed.

#[local] Instance egroup_inj : Inj (=) (=) egroup.
Proof.
  intros g1 g2 Heq. unfold egroup in Heq. apply append_inj_r in Heq.
  pose proof (int_of_string_pct_03i g1) as H1. rewrite Heq in H1.
  rewrite int_of_string_pct_03i in H1. congruence.
Qed.

(** The field list of the branch with energy groups. *)
Lemma detect_groups_shape parameters fhandle groups fl :
  parameters !! "mesh_g" = Some (VArray groups) → groups ≠ [] →
  _detect_output_fields parameters fhandle = Ok fl →
  ∃ members names,
    file_getitem fhandle hdf5_db = Ok (Group members)
    ∧ fl = mjoin ((λ ft, pair ft <$> names) <$> (egroup <$> groups))
    ∧ NoDup names
    ∧ names `sublist_of` (map_to_list members).*1
    ∧ ∀ name, name ∈ names ↔
        ∃ v, members !! name = Some (Dataset v) ∧ truth v = Ok true
             ∧ name ≠ "block" ∧ name ≠ "angular_mesh".
Proof.
  intros Hg Hne (members & Hf & _ & _ & _ & ->)%detect_Ok_inv.
  destruct (expected_fields_names parameters members)
    as (names & -> & Hnd & Hsub & Hin).
  exists members, names. split; [done|]. split; [|done].
  unfold field_types. rewrite Hg. by destruct groups.
Qed.

(** The field list of the branch without. *)
Lemma detect_fallback_shape parameters fhandle fl :
  parameters !! "mesh_g" = None ∨ parameters !! "mesh_g" = Some (VArray []) →
  _detect_output_fields parameters fhandle = Ok fl →
  ∃ members names,
    file_getitem fhandle hdf5_db = Ok (Group members)
    ∧ fl = pair "denovo" <$> names
    ∧ NoDup names
    ∧ names `sublist_of` (map_to_list members).*1
    ∧ ∀ name, name ∈ names ↔
        ∃ v, members !! name = Some (Dataset v) ∧ truth v = Ok true
             ∧ name ≠ "block" ∧ name ≠ "angular_mesh".
Proof.
  intros Hg (members & Hf & _ & _ & _ & ->)%detect_Ok_inv.
  destruct (expected_fields_names parameters members)
    as (names & -> & Hnd & Hsub & Hin).
  exists members, names. split; [done|]. split; [|done].
  unfold field_types. destruct Hg as [-> | ->]; simpl; apply app_nil_r.
Qed.

(** X5.  With a non-empty ['mesh_g'], every field list that is returned
    is made of one block per group, in the order of ['mesh_g']: the same
    names in the same order under each group's label.  The names are the
    populated datasets of the flag group other than ['block'] and
    ['angular_mesh'], each once; so the list has (number of groups) times
    (number of names) entries. *)
Theorem X5_one_block_of_fields_per_group parameters fhandle groups fl :
  parameters !! "mesh_g" = Some (VArray groups) → groups ≠ [] →
  _detect_output_fields parameters fhandle = Ok fl →
  ∃ members names,
    file_getitem fhandle hdf5_db = Ok (Group members)
    ∧ fl = mjoin ((λ g, pair (egroup g) <$> names) <$> groups)
    ∧ length fl = length groups * length names
    ∧ NoDup names
    ∧ ∀ name, name ∈ names ↔
        ∃ v, members !! name = Some (Dataset v) ∧ truth v = Ok true
             ∧ name ≠ "block" ∧ name ≠ "angular_mesh".
Proof.
  intros Hg Hne Hd.
  destruct (detect_groups_shape _ _ _ _ Hg Hne Hd)
    as (members & names & Hf & -> & Hnd & _ & Hin).
  exists members, names. split; [done|].
  rewrite join_labels_length, length_fmap, <- list_fmap_compose. done.
Qed.

(** X6.  With a non-empty ['mesh_g'] of integer group numbers, a field
    list without repeated entries is what distinct group numbers give: if
    the integer group numbers are pairwise distinct, no entry is
    repeated; and if the list is not empty and has no repeated entry, the
    group numbers were pairwise distinct (a group number listed twice
    lists its fields twice). *)
Theorem X6_repeated_fields_come_from_repeated_groups parameters fhandle
    groups fl :
  parameters !! "mesh_g" = Some (VArray groups) → groups ≠ [] →
  _detect_output_fields parameters fhandle = Ok fl →
  (NoDup groups → NoDup fl) ∧ (fl ≠ [] → NoDup fl → NoDup groups).
Proof.
  intros Hg Hne Hd.
  destruct (detect_groups_shape _ _ _ _ Hg Hne Hd)
    as (members & names & Hf & -> & Hnd & _ & Hin).
  split.
  - intros Hgs. apply join_labels_NoDup; [|done].
    by apply (NoDup_fmap_2 _).
  - intros Hfl Hnd'. apply (NoDup_fmap_1 egroup).
    apply (join_labels_NoDup_inv _ names); [|done].
    intros ->. apply Hfl. clear. induction groups as [|g groups IH]; [done|].
    by rewrite fmap_cons, join_labels_cons, IH.
Qed.

(** X7.  With ['mesh_g'] absent, as with ['mesh_g'] empty, every field
    list that is returned has ['denovo'] as the type of each entry, lists
    the names in the order of the file's listing, and lists none twice. *)
Theorem X7_fallback_list_in_listing_order parameters fhandle fl :
  parameters !! "mesh_g" = None ∨ parameters !! "mesh_g" = Some (VArray []) →
  _detect_output_fields parameters fhandle = Ok fl →
  ∃ members,
    file_getitem fhandle hdf5_db = Ok (Group members)
    ∧ (∀ ft name, (ft, name) ∈ fl → ft = "denovo")
    ∧ fl.*2 `sublist_of` (map_to_list members).*1
    ∧ NoDup fl.
Proof.
  intros Hg Hd.
  destruct (detect_fallback_shape _ _ _ Hg Hd)
    as (members & names & Hf & -> & Hnd & Hsub & _).
  exists members. split; [done|]. split; [|split].
  - by intros ft name (name' & [= -> ->] & _)%list_elem_of_fmap.
  - rewrite <- list_fmap_compose.
    rewrite (list_fmap_ext (snd ∘ pair "denovo") id names) by done.
    by rewrite list_fmap_id.
  - by apply (NoDup_fmap_2 _).
Qed.
End field_list_shape.

Lemma X5_one_block_of_fields_per_group_witness :
  let parameters : gmap string Np.value := {[ "mesh_g" := Np.VArray [1; 2]%Z ]} in
  let fl := [("egroup_001", "flux"); ("egroup_002", "flux")] in
  parameters !! "mesh_g" = Some (Np.VArray [1; 2]%Z)
  ∧ [1; 2]%Z ≠ []
  ∧ DenovoIndex._detect_output_fields parameters Samples.grouped = Ok fl
  ∧ ∃ names : list string, length fl = 2 * length names ∧ NoDup names.
Proof.
  intros parameters fl.
  assert (parameters !! "mesh_g" = Some (Np.VArray [1; 2]%Z)) as Hg
    by (vm_compute; reflexivity).
  assert ([1; 2]%Z ≠ []) as Hne by discriminate.
  assert (DenovoIndex._detect_output_fields parameters Samples.grouped = Ok fl)
    as Hd by (vm_compute; reflexivity).
  repeat (split; [assumption|]).
  destruct (X5_one_block_of_fields_per_group parameters Samples.grouped
              _ fl Hg Hne Hd) as (members & names & _ & _ & Hlen & Hnd & _).
  exists names. split; [exact Hlen | exact Hnd].
Defined.

Lemma X6_repeated_fields_come_from_repeated_groups_witness :
  let parameters : gmap string Np.value := {[ "mesh_g" := Np.VArray [1; 2]%Z ]} in
  let fl := [("egroup_001", "flux"); ("egroup_002", "flux")] in
  parameters !! "mesh_g" = Some (Np.VArray [1; 2]%Z)
  ∧ [1; 2]%Z ≠ []
  ∧ DenovoIndex._detect_output_fields parameters Samples.grouped = Ok fl
  ∧ NoDup [1; 2]%Z
  ∧ NoDup fl.
Proof.
  intros parameters fl.
  assert (parameters !! "mesh_g" = Some (Np.VArray [1; 2]%Z)) as Hg
    by (vm_compute; reflexivity).
  assert ([1; 2]%Z ≠ []) as Hne by discriminate.
  assert (DenovoIndex._detect_output_fields parameters Samples.grouped = Ok fl)
    as Hd by (vm_compute; reflexivity).
  assert (NoDup [1; 2]%Z) as Hgs
    by (apply (bool_decide_unpack _); vm_compute; exact I).
  repeat (split; [assumption|]).
  destruct (X6_repeated_fields_come_from_repeated_groups parameters
              Samples.grouped _ fl Hg Hne Hd) as [Hfl _].
  exact (Hfl Hgs).
Defined.

Lemma X7_fallback_list_in_listing_order_witness :
  (∅ : gmap string Np.value) !! "mesh_g" = None
  ∧ DenovoIndex._detect_output_fields ∅ Samples.plain = Ok [("denovo", "flux")]
  ∧ NoDup [("denovo", "flux")].
Proof.
  assert ((∅ : gmap string Np.value) !! "mesh_g" = None) as Hg
    by apply lookup_empty.
  assert (DenovoIndex._detect_output_fields ∅ Samples.plain
          = Ok [("denovo", "flux")]) as Hd by (vm_compute; reflexivity).
  repeat (split; [assumption|]).
  destruct (X7_fallback_list_in_listing_order ∅ Samples.plain _
              (or_introl Hg) Hd) as (members & _ & _ & _ & Hnd).
  exact Hnd.
Defined.

(** * More on the domain edges and the loader *)

Section edges_and_loader.
Import Np H5 DenovoDataset Spec.
Implicit Types (parameters loaded : gmap string value) (handle : file)
  (members : gmap string node) (v : value).

(** What [min] and [max] of one value return is ordered, unless the
    value holds a NaN and both are NaN. *)
Lemma min_max_ordered v a b :
  min v = Ok a → max v = Ok b →
  (¬ holds_nan v ∧ num_le a b)
  ∨ (holds_nan v ∧ a = Floating NaN ∧ b = Floating NaN).
Proof.
  intros [Hnan Hmin]%min_minimum [Hnan' Hmax]%max_maximum.
  destruct (decide (Floating NaN ∈ elements v)) as [Hn|Hn].
  - right. auto.
  - left. split; [done|].
    destruct (Hmin Hn) as [Hin _], (Hmax Hn) as [_ Hle]. auto.
Qed.

(** X8.  Whatever [_load_domain_edge] returns, for any parameter
    mapping: the two edges have the same length, none or three; in every
    component the left edge is below the right edge, or both are NaN
    (the array of that axis holds a NaN); and with no NaN in the mapping
    the left edge is below the right edge in every component. *)
Theorem X8_left_edge_below_right_edge parameters left right :
  _load_domain_edge parameters = Ok (left, right) →
  (length left = length right)
  ∧ (length left = 0 ∨ length left = 3)
  ∧ Forall2 (λ l r, num_le l r ∨ (l = Floating NaN ∧ r = Floating NaN))
      left right
  ∧ ((∀ key v, parameters !! key = Some v → ¬ holds_nan v) →
     Forall2 num_le left right).
Proof.
  unfold _load_domain_edge. case_bool_decide as Hx.
  2: { intros [= <- <-]. split; [done|]. split; [by left|].
       split; [constructor|]. intros _. constructor. }
  intros Hr.
  apply bind_Ok_inv in Hr as (lx & Hlx & Hr).
  apply bind_Ok_inv in Hr as (ly & Hly & Hr).
  apply bind_Ok_inv in Hr as (lz & Hlz & Hr).
  apply bind_Ok_inv in Hr as (rx & Hrx & Hr).
  apply bind_Ok_inv in Hr as (ry & Hry & Hr).
  apply bind_Ok_inv in Hr as (rz & Hrz & Hr).
  injection Hr as <- <-.
  apply bind_Ok_inv in Hlx as (vx & Hvx & Hlx).
  apply bind_Ok_inv in Hly as (vy & Hvy & Hly).
  apply bind_Ok_inv in Hlz as (vz & Hvz & Hlz).
  rewrite Hvx in Hrx. rewrite Hvy in Hry. rewrite Hvz in Hrz.
  simpl in Hrx, Hry, Hrz.
  pose proof (min_max_ordered _ _ _ Hlx Hrx) as Hox.
  pose proof (min_max_ordered _ _ _ Hly Hry) as Hoy.
  pose proof (min_max_ordered _ _ _ Hlz Hrz) as Hoz.
  split; [done|]. split; [by right|]. split.
  - constructor; [tauto|]. constructor; [tauto|].
    constructor; [tauto|]. constructor.
  - intros Hnan. unfold dict_getitem in Hvx, Hvy, Hvz.
    destruct (parameters !! "mesh_x") as [vx'|] eqn:Ex; [|done].
    destruct (parameters !! "mesh_y") as [vy'|] eqn:Ey; [|done].
    destruct (parameters !! "mesh_z") as [vz'|] eqn:Ez; [|done].
    injection Hvx as ->. injection Hvy as ->. injection Hvz as ->.
    pose proof (Hnan _ _ Ex). pose proof (Hnan _ _ Ey).
    pose proof (Hnan _ _ Ez).
    constructor; [tauto|]. constructor; [tauto|].
    constructor; [tauto|]. constructor.
Qed.

Lemma X8_left_edge_below_right_edge_witness :
  _load_domain_edge MoreSamples.nan_mesh =
    Ok ([Floating NaN; Floating (Finite 0); Floating (Finite 0)],
        [Floating NaN; Floating (Finite 1); Floating (Finite 5)])
  ∧ Forall2 (λ l r, num_le l r ∨ (l = Floating NaN ∧ r = Floating NaN))
      [Floating NaN; Floating (Finite 0); Floating (Finite 0)]
      [Floating NaN; Floating (Finite 1); Floating (Finite 5)].
Proof.
  assert (_load_domain_edge MoreSamples.nan_mesh =
            Ok ([Floating NaN; Floating (Finite 0); Floating (Finite 0)],
                [Floating NaN; Floating (Finite 1); Floating (Finite 5)]))
    as Hr by (vm_compute; reflexivity).
  split; [exact Hr|].
  destruct (X8_left_edge_below_right_edge MoreSamples.nan_mesh _ _ Hr)
    as (_ & _ & Hle & _).
  exact Hle.
Defined.

(** The mapping after the loop of [_load_parameters], key by key. *)
Lemma load_lookup parameters members key :
  foldl load_item parameters (map_to_list members) !! key =
    if stored_elsewhere key then parameters !! key
    else match members !! key with
         | Some (Dataset v) => Some v
         | _ => parameters !! key
         end.
Proof.
  destruct (stored_elsewhere key) eqn:Hk.
  { apply load_stored_elsewhere. by rewrite Hk. }
  destruct (members !! key) as [[v| |]|] eqn:Hm.
  - apply load_listed.
    + apply (NoDup_fst_map_to_list members).
    + by apply elem_of_map_to_list.
    + rewrite Hk. intros [].
  - apply load_not_listed. intros v Hin%elem_of_map_to_list. congruence.
  - apply load_not_listed. intros v Hin%elem_of_map_to_list. congruence.
  - apply load_not_listed. intros v Hin%elem_of_map_to_list. congruence.
Qed.

Lemma load_parameters_Ok_inv handle parameters loaded :
  _load_parameters handle parameters = Ok loaded →
  ∃ members, file_getitem handle ["denovo"] = Ok (Group members)
             ∧ loaded = foldl load_item parameters (map_to_list members).
Proof.
  unfold _load_parameters.
  destruct (file_getitem handle ["denovo"]) as [[v|members|]|e];
    simpl; try discriminate.
  intros [= <-]. eauto.
Qed.

Lemma load_parameters_group handle parameters members :
  file_getitem handle ["denovo"] = Ok (Group members) →
  _load_parameters handle parameters
  = Ok (foldl load_item parameters (map_to_list members)).
Proof. intros Hf. unfold _load_parameters. by rewrite Hf. Qed.

(** X9.  Loading is stable and never forgets: when [_load_parameters]
    returns a mapping, every key of the mapping it started from is still a
    key, and loading the same file again into the result returns the
    result unchanged. *)
Theorem X9_loading_twice_changes_nothing handle parameters loaded :
  _load_parameters handle parameters = Ok loaded →
  (∀ key, is_Some (parameters !! key) → is_Some (loaded !! key))
  ∧ _load_parameters handle loaded = Ok loaded.
Proof.
  intros (members & Hf & ->)%load_parameters_Ok_inv. split.
  - intros key Hk. rewrite load_lookup.
    destruct (stored_elsewhere key); [done|].
    by destruct (members !! key) as [[v| |]|].
  - rewrite (load_parameters_group _ _ members) by done. f_equal.
    apply map_eq. intros key. rewrite !load_lookup.
    destruct (stored_elsewhere key); [done|].
    by destruct (members !! key) as [[v| |]|].
Qed.

Lemma X9_loading_twice_changes_nothing_witness :
  ∃ loaded, _load_parameters Samples.plain MoreSamples.stale = Ok loaded
            ∧ is_Some (loaded !! "comment")
            ∧ _load_parameters Samples.plain loaded = Ok loaded.
Proof.
  assert (∃ loaded,
            _load_parameters Samples.plain MoreSamples.stale = Ok loaded)
    as [loaded Hl] by (vm_compute; eexists; reflexivity).
  exists loaded. split; [exact Hl|].
  destruct (X9_loading_twice_changes_nothing _ _ _ Hl) as [Hkeys Hagain].
  split; [|exact Hagain].
  apply Hkeys. vm_compute. eauto.
Defined.


End edges_and_loader.


(** * Parsing and validating *)

Section parse_and_validate.
Import Np H5 DenovoIndex DenovoDataset Spec.
Variable h5py_File : string → result file.
Implicit Types (self ds : dataset) (handle : file).

Lemma file_getitem_member handle name n :
  file_getitem handle [name] = Ok n → root handle !! name = Some n.
Proof.
  unfold file_getitem. simpl.
  destruct (root handle !! name) as [n'|]; [|discriminate]. by intros [= <-].
Qed.

Lemma file_getitem_no_denovo handle path :
  root handle !! "denovo" = None →
  file_getitem handle ("denovo" :: path) = Raise KeyError.
Proof. intros Hd. unfold file_getitem. simpl. by rewrite Hd. Qed.

(** The stages of [_parse_parameter_file], read back from its result. *)
Lemma parse_Ok_inv self ds :
  _parse_parameter_file h5py_File self = Ok ds →
  ∃ handle loaded edges fluid_types',
    h5py_File (parameter_filename self) = Ok handle
    ∧ _load_parameters handle (parameters self) = Ok loaded
    ∧ _load_domain_edge loaded = Ok edges
    ∧ _load_energy_fluid_types loaded (fluid_types self) = Ok fluid_types'
    ∧ parameters ds = loaded
    ∧ (domain_left_edge ds, domain_right_edge ds) = edges
    ∧ fluid_types ds = fluid_types'
    ∧ domain_dimensions ds = [2; 2; 2]%Z
    ∧ dimensionality ds = 3
    ∧ periodicity ds = (false, false, false)
    ∧ current_time ds = 0%Z
    ∧ unique_identifier ds = parameter_filename self.
Proof.
  unfold _parse_parameter_file. intros Hp.
  apply bind_Ok_inv in Hp as (handle & Hh & Hp).
  apply bind_Ok_inv in Hp as (loaded & Hl & Hp).
  apply bind_Ok_inv in Hp as (edges & He & Hp).
  apply bind_Ok_inv in Hp as (fluid_types' & Hft & Hp).
  injection Hp as <-. exists handle, loaded, edges, fluid_types'.
  simpl. by destruct edges.
Qed.

(** X11.  What parsing leaves behind.  Whenever [_parse_parameter_file]
    returns: the file was opened, the parameters are what the loader
    returned, the edges are what [_load_domain_edge] returned on them; the
    loaded parameters do hold an array ['mesh_g'] (of integers, or of
    floats none of which is NaN), and the fluid types are the earlier
    ones followed by one label per group; and the domain
    dimensions are [[2, 2, 2]], the dimensionality 3, the periodicity all
    false and the current time 0, whatever the mesh arrays hold. *)
Theorem X11_what_parsing_leaves self ds :
  _parse_parameter_file h5py_File self = Ok ds →
  ∃ handle mesh_g groups,
    h5py_File (parameter_filename self) = Ok handle
    ∧ _load_parameters handle (parameters self) = Ok (parameters ds)
    ∧ _load_domain_edge (parameters ds)
      = Ok (domain_left_edge ds, domain_right_edge ds)
    ∧ parameters ds !! "mesh_g" = Some mesh_g
    ∧ (mesh_g = VArray groups
       ∨ ∃ fs, mesh_g = VFloats fs ∧ (NaN ∉ fs)
               ∧ groups = omap float_group fs)
    ∧ fluid_types ds = fluid_types self ++ (egroup <$> groups)
    ∧ domain_dimensions ds = [2; 2; 2]%Z
    ∧ dimensionality ds = 3
    ∧ periodicity ds = (false, false, false)
    ∧ current_time ds = 0%Z
    ∧ unique_identifier ds = parameter_filename self.
Proof.
  intros (handle & loaded & edges & fluid_types' & Hh & Hl & He & Hft
          & <- & <- & <- & Hrest)%parse_Ok_inv.
  rewrite load_energy_fluid_types_shape in Hft.
  destruct (parameters ds !! "mesh_g") as [[x|groups|fs]|] eqn:Hg;
    try discriminate.
  - injection Hft as Hft. exists handle, (VArray groups), groups.
    rewrite <- Hft. repeat (split; [done|]). split; [by left|done].
  - case_bool_decide as Hn; [discriminate|]. injection Hft as Hft.
    exists handle, (VFloats fs), (omap float_group fs).
    rewrite <- Hft. repeat (split; [done|]). split; [|done].
    right. by exists fs.
Qed.

(** X12.  A file that parses validates: whenever [_parse_parameter_file]
    returns for a dataset object, [_is_valid] on its file name returns
    [True]. *)
Theorem X12_parsed_files_are_valid self ds :
  _parse_parameter_file h5py_File self = Ok ds →
  _is_valid h5py_File [parameter_filename self] = Ok true.
Proof.
  intros (handle & loaded & _ & _ & Hh & Hl & _)%parse_Ok_inv.
  apply load_parameters_Ok_inv in Hl as (members & Hf%file_getitem_member & _).
  rewrite (is_valid_opened _ _ (parameter_filename self) handle); [|done|done].
  by rewrite Hf.
Qed.

(** X13.  The converse fails on forward runs.  For every file whose root
    has ['denovo-forward'] but no ['denovo'], [_is_valid] returns [True],
    yet [_parse_parameter_file] raises [KeyError] (the loader reads
    ['/denovo'] only), and [_detect_output_fields] returns no field list
    for any parameter mapping. *)
Theorem X13_forward_files_validate_but_do_not_parse self handle :
  h5py_File (parameter_filename self) = Ok handle →
  root handle !! "denovo" = None →
  is_Some (root handle !! "denovo-forward") →
  _is_valid h5py_File [parameter_filename self] = Ok true
  ∧ _parse_parameter_file h5py_File self = Raise KeyError
  ∧ ∀ parameters fl, _detect_output_fields parameters handle ≠ Ok fl.
Proof.
  intros Hh Hd Hf. split; [|split].
  - rewrite (is_valid_opened _ _ (parameter_filename self) handle); [|done|done].
    rewrite Hd. f_equal. by apply bool_decide_eq_true_2.
  - unfold _parse_parameter_file, _load_parameters. rewrite Hh. simpl.
    by rewrite file_getitem_no_denovo.
  - intros parameters fl Hfl.
    destruct (detect_Raise parameters handle) as [e He]; [|congruence].
    intros (members & Hm & _). unfold hdf5_db in Hm.
    rewrite file_getitem_no_denovo in Hm by done. discriminate.
Qed.
End parse_and_validate.

Lemma X11_what_parsing_leaves_witness :
  ∃ ds, DenovoDataset._parse_parameter_file Samples.disk
          (Samples.fresh "grouped.out.h5") = Ok ds
        ∧ DenovoDataset.domain_dimensions ds = [2; 2; 2]%Z
        ∧ ∃ mesh_g groups,
            DenovoDataset.parameters ds !! "mesh_g" = Some mesh_g
            ∧ DenovoDataset.fluid_types ds
              = ["gas"; "deposit"; "index"; "denovo"]
                ++ (DenovoIndex.egroup <$> groups).
Proof.
  assert (∃ ds, DenovoDataset._parse_parameter_file Samples.disk
                  (Samples.fresh "grouped.out.h5") = Ok ds) as [ds Hp]
    by (vm_compute; eexists; reflexivity).
  exists ds. split; [exact Hp|].
  destruct (X11_what_parsing_leaves Samples.disk _ _ Hp)
    as (handle & mesh_g & groups & _ & _ & _ & Hg & _ & Hft & Hdim & _).
  split; [exact Hdim|]. exists mesh_g, groups. split; [exact Hg | exact Hft].
Defined.

Lemma X12_parsed_files_are_valid_witness :
  (∃ ds, DenovoDataset._parse_parameter_file Samples.disk
           (Samples.fresh "grouped.out.h5") = Ok ds)
  ∧ DenovoDataset._is_valid Samples.disk ["grouped.out.h5"] = Ok true.
Proof.
  assert (∃ ds, DenovoDataset._parse_parameter_file Samples.disk
                  (Samples.fresh "grouped.out.h5") = Ok ds) as [ds Hp]
    by (vm_compute; eexists; reflexivity).
  split; [by exists ds|].
  exact (X12_parsed_files_are_valid Samples.disk _ _ Hp).
Defined.

Lemma X13_forward_files_validate_but_do_not_parse_witness :
  MoreSamples.disk "forward.out.h5" = Ok MoreSamples.forward
  ∧ H5.root MoreSamples.forward !! "denovo" = None
  ∧ is_Some (H5.root MoreSamples.forward !! "denovo-forward")
  ∧ DenovoDataset._is_valid MoreSamples.disk ["forward.out.h5"] = Ok true
  ∧ DenovoDataset._parse_parameter_file MoreSamples.disk
      (Samples.fresh "forward.out.h5") = Raise KeyError.
Proof.
  assert (MoreSamples.disk "forward.out.h5" = Ok MoreSamples.forward) as Hh
    by (vm_compute; reflexivity).
  assert (H5.root MoreSamples.forward !! "denovo" = None) as Hd
    by (vm_compute; reflexivity).
  assert (is_Some (H5.root MoreSamples.forward !! "denovo-forward")) as Hf
    by (vm_compute; eauto).
  repeat (split; [assumption|]).
  destruct (X13_forward_files_validate_but_do_not_parse MoreSamples.disk
              (Samples.fresh "forward.out.h5") _ Hh Hd Hf) as (Hv & Hp & _).
  split; [exact Hv | exact Hp].
Defined.

(** * A well-formed file, end to end *)

Section well_formed_file.
Import Np H5 DenovoIndex DenovoDataset Spec.
Variable h5py_File : string → result file.

End well_formed_file.

